(** * tetris_project.controller: controllers and the Q-network

    A shallow embedding of [src/tetris_project/controller.py]:
    the [Controller] hierarchy ([HumanController], [DQNTrainerController],
    [DQNPlayerController]) and the [DQN] module, as executable functions
    over an explicit world (controller object, network parameters, numpy's
    global random state, the terminal and the file system).

    The tensor framework and numpy are not part of the repository.  Their
    primitives (float arithmetic, [exp], the random generator, autograd,
    the Adam optimizer, the checkpoint serializer) are taken as interfaces
    (type classes); what the development assumes of them is stated in
    separate law classes and used only where a theorem names them. *)

From stdpp Require Import gmap strings list fin_maps.
From Stdlib Require Import QArith Lqa.

Close Scope Q_scope.

(** ** Python values shared by every part of the file *)

(** The exceptions the modelled code can raise. *)
Inductive exn :=
  | KeyError | TypeError | IndexError | ValueError | AttributeError
  | RuntimeError | FileNotFoundError | UnpicklingError | EOFError.

(** Outcome of a Python call: [return v] or [raise e]. *)
Inductive result (A : Type) :=
  | Ok (a : A)
  | Raise (e : exn).
#[global] Instance exn_eq_dec : EqDecision exn.
Proof. solve_decision. Defined.

Arguments Ok {A} a.
Arguments Raise {A} e.

(** [tetris_gym.Action]: a stable integer [id] plus display metadata. *)
Record Action := { id : Z; name : string }.

#[global] Instance Action_eq_dec : EqDecision Action.
Proof. solve_decision. Defined.

(** The [actions] argument of [Controller.__init__].  It is annotated
    [set[Action]]; Python does not enforce the annotation, and a [list] is
    the other iterable a caller can pass.  Both carry their elements in
    iteration order. *)
Inductive container :=
  | PySet (elems : list Action)
  | PyList (elems : list Action).

(** [for action in actions] / [list(actions)]. *)
Definition iter (c : container) : list Action :=
  match c with PySet l => l | PyList l => l end.

(** [len(seq)] as a Python int. *)
Definition len {A} (l : list A) : Z := Z.of_nat (length l).

(** [seq[i]] on a Python list: negative indices count from the end,
    anything outside [-len, len) raises [IndexError]. *)
Definition list_getitem {A} (l : list A) (i : Z) : result A :=
  let j := if (i <? 0)%Z then (i + len l)%Z else i in
  if (j <? 0)%Z then Raise IndexError
  else match l !! Z.to_nat j with
       | Some a => Ok a
       | None => Raise IndexError
       end.

(** [actions[i]]: a [set] is not subscriptable. *)
Definition getitem (c : container) (i : Z) : result Action :=
  match c with
  | PySet _ => Raise TypeError
  | PyList l => list_getitem l i
  end.

(** [d[k]] on a dict. *)
Definition dict_getitem `{Countable K} {V} (d : gmap K V) (k : K) : result V :=
  match d !! k with
  | Some v => Ok v
  | None => Raise KeyError
  end.

(** ** Floats and tensors *)

(** The float type of the framework with the operations the module uses.
    [fQ] reads a decimal literal. *)
Class Float := {
  float : Type;
  fQ : Q -> float;
  fadd : float -> float -> float;
  fsub : float -> float -> float;
  fmul : float -> float -> float;
  fdiv : float -> float -> float;
  fexp : float -> float;
  flt : float -> float -> bool;
}.

(** What the argmax theorems assume of [<]: a strict weak order, as on
    floats that are not NaN. *)
Class FloatOrder `{Float} : Prop := {
  flt_irrefl : forall x, flt x x = false;
  flt_trans : forall x y z, flt x y = true -> flt y z = true -> flt x z = true;
  flt_cotrans : forall x y z, flt x z = true -> flt x y = true \/ flt y z = true;
}.

Section Network.
Context `{FL : Float}.

Definition f0 : float := fQ 0%Q.
Definition f1 : float := fQ 1%Q.

(** [tetris_gym.TetrisState]: [to_tensor()], [score] and [turn]. *)
Record TetrisState := {
  to_tensor : list float;
  score : float;
  turn : float;
}.

(** [torch.relu], element-wise [max(x, 0)]. *)
Definition relu (v : list float) : list float :=
  map (fun x => if flt f0 x then x else f0) v.

Definition fsum (v : list float) : float := foldl fadd f0 v.

(** [nn.Softmax(dim=0)] on a vector. *)
Definition softmax (v : list float) : list float :=
  let e := map fexp v in
  map (fun x => fdiv x (fsum e)) e.

Definition dot (u v : list float) : float := fsum (zip_with fmul u v).

(** [nn.Linear(in_features, out_features)]: [weight] has one row per
    output, [bias] one entry per output. *)
Record Linear := {
  in_features : nat;
  out_features : nat;
  weight : list (list float);
  bias : list float;
}.

(** The affine map [x @ weight.T + bias]. *)
Definition affine (l : Linear) (x : list float) : list float :=
  zip_with fadd (map (fun row => dot row x) (weight l)) (bias l).

(** [Linear.forward]: the framework rejects an input whose size is not
    [in_features]. *)
Definition Linear_forward (l : Linear) (x : list float) : result (list float) :=
  if decide (length x = in_features l) then Ok (affine l x)
  else Raise RuntimeError.

(** Shapes as [nn.Linear.__init__] allocates them. *)
Definition Linear_shaped (l : Linear) : Prop :=
  length (weight l) = out_features l /\
  length (bias l) = out_features l /\
  Forall (fun row => length row = in_features l) (weight l).

(** Initial parameter values: the framework draws them at construction;
    here they are read from a table indexed by position. *)
Record Linear_values := {
  weight_at : nat -> nat -> float;
  bias_at : nat -> float;
}.

Definition Linear_init (i o : nat) (v : Linear_values) : Linear :=
  {| in_features := i;
     out_features := o;
     weight := map (fun r => map (weight_at v r) (seq 0 i)) (seq 0 o);
     bias := map (bias_at v) (seq 0 o) |}.

(** [class DQN(nn.Module)]: the three layers; [softmax] has no
    parameters. *)
Record DQN := {
  fc1 : Linear;
  fc2 : Linear;
  fc3 : Linear;
}.

Record DQN_values := {
  fc1_values : Linear_values;
  fc2_values : Linear_values;
  fc3_values : Linear_values;
}.

(** [DQN.__init__(input_size, output_size)]. *)
Definition DQN_init (input_size output_size : nat) (v : DQN_values) : DQN :=
  {| fc1 := Linear_init input_size 128 (fc1_values v);
     fc2 := Linear_init 128 64 (fc2_values v);
     fc3 := Linear_init 64 output_size (fc3_values v) |}.

(** The forward pass as a function of the parameters. *)
Definition DQN_apply (net : DQN) (x : list float) : result (list float) :=
  match Linear_forward (fc1 net) x with
  | Raise e => Raise e
  | Ok h1 =>
    match Linear_forward (fc2 net) (relu h1) with
    | Raise e => Raise e
    | Ok h2 =>
      match Linear_forward (fc3 net) (relu h2) with
      | Raise e => Raise e
      | Ok h3 => Ok (softmax h3)
      end
    end
  end.

(** [torch.argmax] of a vector: a left-to-right scan that moves only on a
    strictly larger entry, so the first maximum wins; an empty vector is
    refused with [IndexError].  The scores are taken to be ordered by [<]
    (see [FloatOrder]): a NaN among them is outside this model. *)
Fixpoint argmax_from (best_i : nat) (best : float) (i : nat) (v : list float) : nat :=
  match v with
  | [] => best_i
  | x :: r =>
    if flt best x then argmax_from i x (S i) r
    else argmax_from best_i best (S i) r
  end.

Definition argmax (v : list float) : result Z :=
  match v with
  | [] => Raise IndexError
  | x :: r => Ok (Z.of_nat (argmax_from 0 x 1 r))
  end.

(** The entry at [i] is a maximum of [v], and the first one: nothing is
    above it and everything before it is strictly below. *)
Definition first_max (v : list float) (i : nat) : Prop :=
  exists b, v !! i = Some b /\
    (forall j y, v !! j = Some y -> flt b y = false) /\
    (forall j y, j < i -> v !! j = Some y -> flt y b = true).

(** [torch.max] of a vector. *)
Definition tensor_max (v : list float) : result float :=
  match v with
  | [] => Raise RuntimeError
  | x :: r => Ok (foldl (fun b y => if flt b y then y else b) x r)
  end.

End Network.

(** ** The framework's other primitives *)

(** numpy's global generator: [np.random.rand()] and the index draw
    behind [np.random.choice]. *)
Class NumpyRandom `{Float} := {
  rng_state : Type;
  random_rand : rng_state -> float * rng_state;
  random_index : nat -> rng_state -> nat * rng_state;
}.

(** [rand()] lies in [0, 1) and the index drawn for a population of [n]
    lies in [0, n). *)
Class RandomLaws `{NumpyRandom} : Prop := {
  rand_not_negative : forall g, flt (random_rand g).1 f0 = false;
  rand_below_one : forall g, flt (random_rand g).1 f1 = true;
  index_in_range : forall n g, (0 < n)%nat -> (random_index n g).1 < n;
}.

(** A tensor stored in a state dict, with its shape. *)
Inductive Tensor `{Float} :=
  | Vec (v : list float)
  | Mat (cols : nat) (rows : list (list float)).

(** Autograd, the Adam optimizer and the checkpoint serializer. *)
Class Torch `{Float} := {
  (** [loss.backward()]: the gradient of the loss, seen as a function of
      the parameters, at the given parameters; one entry per parameter. *)
  backward : (DQN -> result float) -> DQN -> DQN;
  Adam : Type;
  (** [optim.Adam(params, lr=lr)] *)
  Adam_new : DQN -> float -> Adam;
  (** [optimizer.step()] on parameters and their gradients. *)
  Adam_step : Adam -> DQN -> DQN -> DQN * Adam;
  blob : Type;
  (** [torch.save] / [torch.load] on the file's bytes. *)
  pickle : gmap string Tensor -> blob;
  unpickle : blob -> option (gmap string Tensor);
}.

(** A checkpoint reads back as it was written. *)
Class PickleLaws `{Torch} : Prop := {
  unpickle_pickle : forall sd, unpickle (pickle sd) = Some sd;
}.

Section Controllers.
Context `{FL : Float} `{NR : !NumpyRandom} `{TO : !Torch}.

(** ** Controller objects *)

Inductive variant :=
  | Human (input_map : gmap string Action)
  | DQNTrainer (epsilon : float)
  | DQNPlayer.

Record Controller := {
  actions : container;
  action_map : gmap Z Action;
  kind : variant;
}.

(** [{action.id: action for action in actions}]: a later action replaces
    an earlier one with the same id. *)
Definition build_action_map (acts : container) : gmap Z Action :=
  foldl (fun m a => <[id a := a]> m) ∅ (iter acts).

(** [Controller.__init__] followed by the subclass's own assignments. *)
Definition Controller_init (acts : container) (k : variant) : Controller :=
  {| actions := acts; action_map := build_action_map acts; kind := k |}.

Definition HumanController_init (acts : container) (input_map : gmap string Action) :=
  Controller_init acts (Human input_map).
Definition DQNTrainerController_init (acts : container) (epsilon : float) :=
  Controller_init acts (DQNTrainer epsilon).
Definition DQNPlayerController_init (acts : container) :=
  Controller_init acts DQNPlayer.

(** ** The world a method call runs in *)

Record World := {
  self : Controller;            (* the controller object *)
  model : DQN;                  (* the module behind [self.model] *)
  grad : option DQN;            (* the [.grad] of the module's parameters *)
  numpy_random : rng_state;     (* numpy's global generator *)
  stdin : nat -> option string; (* what each read finds: a line, or the
                                   end of the input ([None]) *)
  stdin_pos : nat;              (* how many lines have been read *)
  stdout : list string;         (* what has been written, oldest first *)
  files : gmap string blob;     (* the file system *)
}.

Definition set_model (m : DQN) (w : World) : World :=
  {| self := self w; model := m; grad := grad w;
     numpy_random := numpy_random w; stdin := stdin w;
     stdin_pos := stdin_pos w; stdout := stdout w; files := files w |}.
Definition set_grad (g : option DQN) (w : World) : World :=
  {| self := self w; model := model w; grad := g;
     numpy_random := numpy_random w; stdin := stdin w;
     stdin_pos := stdin_pos w; stdout := stdout w; files := files w |}.
Definition set_numpy_random (g : rng_state) (w : World) : World :=
  {| self := self w; model := model w; grad := grad w;
     numpy_random := g; stdin := stdin w;
     stdin_pos := stdin_pos w; stdout := stdout w; files := files w |}.
Definition set_files (f : gmap string blob) (w : World) : World :=
  {| self := self w; model := model w; grad := grad w;
     numpy_random := numpy_random w; stdin := stdin w;
     stdin_pos := stdin_pos w; stdout := stdout w; files := f |}.
Definition write_stdout (s : string) (w : World) : World :=
  {| self := self w; model := model w; grad := grad w;
     numpy_random := numpy_random w; stdin := stdin w;
     stdin_pos := stdin_pos w; stdout := stdout w ++ [s]; files := files w |}.
Definition read_stdin (w : World) : World :=
  {| self := self w; model := model w; grad := grad w;
     numpy_random := numpy_random w; stdin := stdin w;
     stdin_pos := S (stdin_pos w); stdout := stdout w; files := files w |}.

(** Computations that read and update the world and may raise. *)
Definition M (A : Type) : Type := World -> result A * World.

Definition ret {A} (a : A) : M A := fun w => (Ok a, w).
Definition bind {A B} (m : M A) (k : A -> M B) : M B :=
  fun w => match m w with
           | (Ok a, w') => k a w'
           | (Raise e, w') => (Raise e, w')
           end.
Definition lift {A} (r : result A) : M A := fun w => (r, w).
Definition gets {A} (f : World -> A) : M A := fun w => (Ok (f w), w).
Definition modify (f : World -> World) : M unit := fun w => (Ok tt, f w).

Notation "'let*' x ':=' m 'in' k" := (bind m (fun x => k))
  (at level 10, x name, m at level 100, k at level 200).

(** [try: body except e: handler] *)
Definition try_except {A} (body : M A) (e : exn) (handler : M A) : M A :=
  fun w => match body w with
           | (Raise e', w') =>
             if decide (e' = e) then handler w' else (Raise e', w')
           | r => r
           end.

(** [input(prompt)]: writes the prompt, then blocks for the next line;
    at the end of the input (a closed pipe, Ctrl-D) it raises
    [EOFError]. *)
Definition input (prompt : string) : M string :=
  fun w => let w1 := write_stdout prompt w in
           match stdin w1 (stdin_pos w1) with
           | Some line => (Ok line, read_stdin w1)
           | None => (Raise EOFError, w1)
           end.

(** [print(s)] *)
Definition print (s : string) : M unit := modify (write_stdout s).

(** [np.random.rand()] *)
Definition np_random_rand : M float :=
  fun w => let (u, g) := random_rand (numpy_random w) in
           (Ok u, set_numpy_random g w).

(** [np.random.choice(a)] on a list: rejects an empty population, else
    draws an index and returns the element there. *)
Definition np_random_choice (a : list Action) : M Action :=
  fun w => match a with
           | [] => (Raise ValueError, w)
           | _ => let (k, g) := random_index (length a) (numpy_random w) in
                  (match a !! k with Some x => Ok x | None => Raise IndexError end,
                   set_numpy_random g w)
           end.

(** ** DQN as an object of the world *)

(** [self.model(x)] calls [DQN.forward] on the current parameters. *)
Definition DQN_forward (x : list float) : M (list float) :=
  let* net := gets model in
  lift (DQN_apply net x).

(** *** [DQN.save] and [DQN.load] *)

Definition shape (t : Tensor) : list nat :=
  match t with
  | Vec v => [length v]
  | Mat cols rows => [length rows; cols]
  end.

(** [self.state_dict()] *)
Definition state_dict (net : DQN) : gmap string Tensor :=
  <["fc1.weight" := Mat (in_features (fc1 net)) (weight (fc1 net))]>
  (<["fc1.bias" := Vec (bias (fc1 net))]>
  (<["fc2.weight" := Mat (in_features (fc2 net)) (weight (fc2 net))]>
  (<["fc2.bias" := Vec (bias (fc2 net))]>
  (<["fc3.weight" := Mat (in_features (fc3 net)) (weight (fc3 net))]>
  (<["fc3.bias" := Vec (bias (fc3 net))]> ∅))))).

(** One parameter of [load_state_dict]: an entry that is there with the
    parameter's own shape is copied into the parameter; [false] reports a
    missing entry or a shape mismatch, and the parameter keeps its
    values. *)
Definition load_weight (sd : gmap string Tensor) (key : string) (l : Linear)
    : list (list float) * bool :=
  match sd !! key with
  | Some (Mat cols rows) =>
    if decide (shape (Mat cols rows) = [out_features l; in_features l])
    then (rows, true) else (weight l, false)
  | _ => (weight l, false)
  end.

Definition load_bias (sd : gmap string Tensor) (key : string) (l : Linear)
    : list float * bool :=
  match sd !! key with
  | Some (Vec b) =>
    if decide (shape (Vec b) = [out_features l])
    then (b, true) else (bias l, false)
  | _ => (bias l, false)
  end.

Definition load_Linear (sd : gmap string Tensor) (prefix : string) (l : Linear)
    : Linear * bool :=
  let (w, w_ok) := load_weight sd (prefix +:+ ".weight") l in
  let (b, b_ok) := load_bias sd (prefix +:+ ".bias") l in
  ({| in_features := in_features l; out_features := out_features l;
      weight := w; bias := b |}, w_ok && b_ok).

(** [self.load_state_dict(sd)] (strict): every parameter whose entry fits
    is overwritten; then [RuntimeError] is raised if an entry was missing
    or misshapen, or if the keys are not exactly the module's own.  The
    network returned is the one the call leaves behind, also when it
    raises. *)
Definition load_state_dict (net : DQN) (sd : gmap string Tensor)
    : result unit * DQN :=
  let (l1, ok1) := load_Linear sd "fc1" (fc1 net) in
  let (l2, ok2) := load_Linear sd "fc2" (fc2 net) in
  let (l3, ok3) := load_Linear sd "fc3" (fc3 net) in
  (if ok1 && ok2 && ok3 && bool_decide (dom sd = dom (state_dict net))
   then Ok tt else Raise RuntimeError,
   {| fc1 := l1; fc2 := l2; fc3 := l3 |}).

(** [torch.save(obj, path)]: writes the file, replacing what was there.
    A path is taken as the name of a file that can be written: a save
    that fails (a missing directory) and two spellings of one file are
    outside this model of the file system. *)
Definition torch_save (obj : gmap string Tensor) (path : string) : M unit :=
  modify (fun w => set_files (<[path := pickle obj]> (files w)) w).

(** [torch.load(path)] *)
Definition torch_load (path : string) : M (gmap string Tensor) :=
  fun w => match files w !! path with
           | None => (Raise FileNotFoundError, w)
           | Some b => match unpickle b with
                       | Some sd => (Ok sd, w)
                       | None => (Raise UnpicklingError, w)
                       end
           end.

Definition DQN_save (path : string) : M unit :=
  let* net := gets model in
  torch_save (state_dict net) path.

Definition DQN_load (path : string) : M unit :=
  let* sd := torch_load path in
  let* net := gets model in
  let* _ := modify (set_model (load_state_dict net sd).2) in
  lift (load_state_dict net sd).1.

(** ** HumanController *)

(** The body of the [try]. *)
Definition HumanController_try (input_map : gmap string Action) : M Action :=
  let* action_input := input "Enter action: " in
  let* action := lift (dict_getitem input_map action_input) in
  let* amap := gets (fun w => action_map (self w)) in
  lift (dict_getitem amap (id action)).

(** One iteration of [while True]: [Some a] is [return a], [None] falls
    through to the next iteration. *)
Definition HumanController_iteration (input_map : gmap string Action)
    : M (option Action) :=
  try_except
    (let* a := HumanController_try input_map in ret (Some a))
    KeyError
    (let* _ := print "Invalid action" in ret None).

(** [HumanController.get_action]: the loop, run for at most [fuel]
    iterations; [None] means it is still prompting.  The state argument
    [ignored] is the parameter the method names [_]. *)
Fixpoint HumanController_get_action (input_map : gmap string Action)
    (fuel : nat) (ignored : TetrisState) (w : World)
    : option (result Action * World) :=
  match fuel with
  | O => None
  | S fuel' =>
    match HumanController_iteration input_map w with
    | (Ok (Some a), w') => Some (Ok a, w')
    | (Ok None, w') => HumanController_get_action input_map fuel' ignored w'
    | (Raise e, w') => Some (Raise e, w')
    end
  end.

(** ** DQNTrainerController *)

Definition DQNTrainerController_get_action (epsilon : float) (state : TetrisState)
    : M Action :=
  let* u := np_random_rand in
  if flt u epsilon then
    let* acts := gets (fun w => actions (self w)) in
    np_random_choice (iter acts)
  else
    let* q_values := DQN_forward (to_tensor state) in
    let* i := lift (argmax q_values) in
    let* amap := gets (fun w => action_map (self w)) in
    lift (dict_getitem amap i).

(** *** Training *)

(** Whether a Python int fits the signed 64-bit integer the framework
    unpacks an index into. *)
Definition fits_int64 (i : Z) : bool :=
  ((- 2 ^ 63 <=? i) && (i <? 2 ^ 63))%Z.

(** [t[i] = x] on a vector: negative indices count from the end.  An
    index outside [-len, len) raises [IndexError] when it fits 64 bits
    and [ValueError] when it does not.  (A tensor has fewer than 2^63
    entries, so an index that does not fit is always out of range.) *)
Definition tensor_setitem (v : list float) (i : Z) (x : float) : result (list float) :=
  let j := if (i <? 0)%Z then (i + len v)%Z else i in
  let out_of_range :=
    if fits_int64 i then Raise IndexError else Raise ValueError in
  if (j <? 0)%Z then out_of_range
  else if decide (Z.to_nat j < length v) then Ok (<[Z.to_nat j := x]> v)
  else out_of_range.

(** [nn.MSELoss()(input, target)]: the mean of the squared differences. *)
Definition MSELoss (input target : list float) : float :=
  fdiv (fsum (map (fun d => fmul d d) (zip_with fsub input target)))
       (fQ (inject_Z (len input))).

(** The loss of [train] as a function of the network parameters: what
    autograd has recorded when [loss.backward()] runs. *)
Definition train_loss (state : TetrisState) (action : Action)
    (next_state : TetrisState) (reward : float) (net : DQN) : result float :=
  match DQN_apply net (to_tensor state) with
  | Raise e => Raise e
  | Ok q_values =>
    match DQN_apply net (to_tensor next_state) with
    | Raise e => Raise e
    | Ok next_q_values =>
      match tensor_max next_q_values with
      | Raise e => Raise e
      | Ok m =>
        match tensor_setitem q_values (id action) (fadd reward m) with
        | Raise e => Raise e
        | Ok target_q_values => Ok (MSELoss q_values target_q_values)
        end
      end
    end
  end.

Definition Linear_add (a b : Linear) : Linear :=
  {| in_features := in_features a;
     out_features := out_features a;
     weight := zip_with (zip_with fadd) (weight a) (weight b);
     bias := zip_with fadd (bias a) (bias b) |}.

Definition DQN_add (a b : DQN) : DQN :=
  {| fc1 := Linear_add (fc1 a) (fc1 b);
     fc2 := Linear_add (fc2 a) (fc2 b);
     fc3 := Linear_add (fc3 a) (fc3 b) |}.

(** [optimizer.zero_grad()] *)
Definition zero_grad : M unit := modify (set_grad None).

(** [loss.backward()]: adds the gradient of the recorded loss to [.grad]. *)
Definition loss_backward (loss : DQN -> result float) : M unit :=
  fun w => let g := backward loss (model w) in
           (Ok tt, set_grad (Some (match grad w with
                                   | None => g
                                   | Some old => DQN_add old g
                                   end)) w).

(** [optimizer.step()]: parameters without a gradient are left alone. *)
Definition optimizer_step (optimizer : Adam) : M unit :=
  fun w => match grad w with
           | None => (Ok tt, w)
           | Some g => (Ok tt, set_model (Adam_step optimizer (model w) g).1 w)
           end.

Definition DQNTrainerController_train (state : TetrisState) (action : Action)
    (next_state : TetrisState) (reward : float) : M unit :=
  let* q_values := DQN_forward (to_tensor state) in
  let* next_q_values := DQN_forward (to_tensor next_state) in
  let* m := lift (tensor_max next_q_values) in
  let* target_q_values :=
    lift (tensor_setitem q_values (id action) (fadd reward m)) in
  let* net := gets model in
  let optimizer := Adam_new net (fQ (1 # 1000)) in
  let loss := train_loss state action next_state reward in
  let* _ := zero_grad in
  let* _ := loss_backward loss in
  optimizer_step optimizer.

Definition DQNTrainerController_evaluate (state : TetrisState) : M float :=
  ret (fadd (score state) (turn state)).

(** ** DQNPlayerController *)

Definition DQNPlayerController_get_action (state : TetrisState) : M Action :=
  let* q_values := DQN_forward (to_tensor state) in
  let* i := lift (argmax q_values) in
  let* acts := gets (fun w => actions (self w)) in
  lift (getitem acts i).

(** [Controller.get_action], dispatched on the variant. *)
Definition get_action (fuel : nat) (state : TetrisState) (w : World)
    : option (result Action * World) :=
  match kind (self w) with
  | Human input_map => HumanController_get_action input_map fuel state w
  | DQNTrainer epsilon => Some (DQNTrainerController_get_action epsilon state w)
  | DQNPlayer => Some (DQNPlayerController_get_action state w)
  end.

(** ** Every operation of the module *)

(** The calls a client can make on a controller and on its network. *)
Inductive method :=
  | call_get_action (state : TetrisState)
  | call_train (state : TetrisState) (action : Action)
               (next_state : TetrisState) (reward : float)
  | call_evaluate (state : TetrisState)
  | call_save (path : string)
  | call_load (path : string).

Definition discard {A} (r : result A * World) : result unit * World :=
  match r with
  | (Ok _, w) => (Ok tt, w)
  | (Raise e, w) => (Raise e, w)
  end.

(** Runs one call; [train] and [evaluate] exist on the trainer only. *)
Definition call (fuel : nat) (m : method) (w : World)
    : option (result unit * World) :=
  match m with
  | call_get_action state => discard <$> get_action fuel state w
  | call_train state action next_state reward =>
    match kind (self w) with
    | DQNTrainer _ =>
      Some (DQNTrainerController_train state action next_state reward w)
    | _ => Some (Raise AttributeError, w)
    end
  | call_evaluate state =>
    match kind (self w) with
    | DQNTrainer _ => Some (discard (DQNTrainerController_evaluate state w))
    | _ => Some (Raise AttributeError, w)
    end
  | call_save path => Some (DQN_save path w)
  | call_load path => Some (DQN_load path w)
  end.

(** What a token typed at the prompt resolves to: the input map's action,
    looked up by id in the controller's own map. *)
Definition resolve (input_map : gmap string Action) (amap : gmap Z Action)
    (token : string) : option Action :=
  match input_map !! token with
  | Some action => amap !! id action
  | None => None
  end.

(** What a read at the prompt leads to: [None] at the end of the input,
    [Some None] for a rejected token, [Some (Some a)] for one that
    resolves to [a]. *)
Definition answer (input_map : gmap string Action) (amap : gmap Z Action)
    (line : option string) : option (option Action) :=
  resolve input_map amap <$> line.

(** What [n] rejected tokens leave on the terminal. *)
Fixpoint rejected_output (n : nat) : list string :=
  match n with
  | O => []
  | S n' => "Enter action: " :: "Invalid action" :: rejected_output n'
  end.

(** How many error messages the terminal shows. *)
Definition errors_printed (out : list string) : nat :=
  count_occ String.eq_dec out "Invalid action".

(** The terminal after one rejected token and after one accepted token. *)
Definition rejected (w : World) : World :=
  write_stdout "Invalid action" (read_stdin (write_stdout "Enter action: " w)).
Definition accepted (w : World) : World :=
  read_stdin (write_stdout "Enter action: " w).

(** The terminal after a prompt that met the end of the input. *)
Definition ended (w : World) : World := write_stdout "Enter action: " w.

(** The architecture [DQN.__init__] builds for the given sizes. *)
Definition DQN_shaped (input_size output_size : nat) (net : DQN) : Prop :=
  (in_features (fc1 net) = input_size /\ out_features (fc1 net) = 128
   /\ Linear_shaped (fc1 net)) /\
  (in_features (fc2 net) = 128 /\ out_features (fc2 net) = 64
   /\ Linear_shaped (fc2 net)) /\
  (in_features (fc3 net) = 64 /\ out_features (fc3 net) = output_size
   /\ Linear_shaped (fc3 net)).

End Controllers.

(** ** A framework instance to run the model on

    Exact rational arithmetic for the floats (with the exponential cut
    after its quadratic term), a linear congruential generator for numpy,
    a constant zero gradient and a plain gradient step for autograd and
    the optimizer, and the identity for the serializer.  It is used only
    to evaluate the model on concrete inputs. *)

Definition Q_lt (x y : Q) : bool := negb (Qle_bool y x).

Definition Q_Float : Float :=
  {| float := Q;
     fQ := fun q => q;
     fadd := fun x y => Qred (x + y);
     fsub := fun x y => Qred (x - y);
     fmul := fun x y => Qred (x * y);
     fdiv := fun x y => Qred (x / y);
     fexp := fun x => Qred (1 + x + x * x / 2);
     flt := Q_lt |}.

Definition lcg_next (s : Z) : Z := ((1103515245 * s + 12345) mod 2147483648)%Z.

Definition LCG_Random : @NumpyRandom Q_Float :=
  {| rng_state := Z;
     random_rand := fun s =>
       (@fQ Q_Float (Qmake (lcg_next s) 2147483648), lcg_next s);
     random_index := fun n s =>
       (Z.to_nat (lcg_next s mod Z.of_nat n), lcg_next s) |}.

Section Examples.
#[local] Existing Instance Q_Float.
#[local] Existing Instance LCG_Random.

Definition Linear_map2 (f : Q -> Q -> Q) (a b : Linear) : Linear :=
  {| in_features := in_features a;
     out_features := out_features a;
     weight := zip_with (zip_with f) (weight a) (weight b);
     bias := zip_with f (bias a) (bias b) |}.

Definition DQN_map2 (f : Q -> Q -> Q) (a b : DQN) : DQN :=
  {| fc1 := Linear_map2 f (fc1 a) (fc1 b);
     fc2 := Linear_map2 f (fc2 a) (fc2 b);
     fc3 := Linear_map2 f (fc3 a) (fc3 b) |}.

Definition Q_Torch : @Torch Q_Float :=
  {| backward := fun _ net => DQN_map2 (fun _ _ => 0%Q) net net;
     Adam := Q;
     Adam_new := fun _ lr => lr;
     Adam_step := fun lr p g =>
       (DQN_map2 (fun x d => Qred (x - lr * d)) p g, lr);
     blob := gmap string Tensor;
     pickle := fun sd => sd;
     unpickle := fun b => Some b |}.

#[local] Existing Instance Q_Torch.

(** The action set of the specification's scenarios. *)
Definition Left : Action := {| id := 0; name := "Left" |}.
Definition Right : Action := {| id := 1; name := "Right" |}.
Definition Drop : Action := {| id := 2; name := "Drop" |}.

(** A network for 10 features and 3 actions: all weights zero, the last
    layer's bias favouring action 1. *)
Definition zero_values : Linear_values :=
  {| weight_at := fun _ _ => fQ 0%Q; bias_at := fun _ => fQ 0%Q |}.

Definition example_values : DQN_values :=
  {| fc1_values := zero_values;
     fc2_values := zero_values;
     fc3_values :=
       {| weight_at := fun _ _ => fQ 0%Q;
          bias_at := fun i =>
            nth i [fQ (1 # 10)%Q; fQ (7 # 10)%Q; fQ (2 # 10)%Q] (fQ 0%Q) |} |}.

Definition example_net : DQN := DQN_init 10 3 example_values.

Definition example_state : TetrisState :=
  {| to_tensor := repeat (fQ 0%Q) 10; score := fQ 0%Q; turn := fQ 0%Q |}.

Definition next_example_state : TetrisState :=
  {| to_tensor := repeat (fQ 1%Q) 10; score := fQ 1%Q; turn := fQ 1%Q |}.

(** The user types [x], then [l] from then on. *)
Definition example_stdin (n : nat) : option string :=
  match n with O => Some "x" | _ => Some "l" end.

(** The user types [x], then the input ends. *)
Definition ended_stdin (n : nat) : option string :=
  match n with O => Some "x" | _ => None end.

Definition example_world (ctl : Controller) : World :=
  {| self := ctl; model := example_net; grad := None;
     numpy_random := 2024%Z; stdin := example_stdin; stdin_pos := 0;
     stdout := []; files := ∅ |}.

Definition ended_world (ctl : Controller) : World :=
  {| self := ctl; model := example_net; grad := None;
     numpy_random := 2024%Z; stdin := ended_stdin; stdin_pos := 0;
     stdout := []; files := ∅ |}.

Definition example_input_map : gmap string Action :=
  <["l" := Left]> (<["r" := Right]> ∅).

Definition example_actions : list Action := [Left; Right; Drop].

End Examples.

(** * Properties *)

(** ** The id -> Action map *)

Section ActionMap.
Implicit Types (l : list Action) (m : gmap Z Action) (a : Action) (k : Z).

Local Abbreviation fill := (foldl (fun m a => <[id a := a]> m)).

Lemma fill_absent l m k : k ∉ id <$> l -> fill m l !! k = m !! k.
Proof.
  revert m. induction l as [|b l IH]; intros m Hk; [done|].
  rewrite fmap_cons, not_elem_of_cons in Hk. destruct Hk as [Hne Hk].
  simpl. rewrite IH by done. by rewrite lookup_insert_ne.
Qed.

Lemma fill_member l m a : NoDup (id <$> l) -> a ∈ l -> fill m l !! id a = Some a.
Proof.
  revert m. induction l as [|b l IH]; intros m Hnd Ha.
  - by apply elem_of_nil in Ha.
  - rewrite fmap_cons, NoDup_cons in Hnd. destruct Hnd as [Hb Hnd].
    apply elem_of_cons in Ha as [->|Ha]; simpl.
    + rewrite fill_absent by done. apply lookup_insert_eq.
    + by apply IH.
Qed.

Lemma fill_origin l m k a :
  fill m l !! k = Some a -> (a ∈ l /\ id a = k) \/ m !! k = Some a.
Proof.
  revert m. induction l as [|b l IH]; intros m H; [by right|].
  simpl in H. apply IH in H as [[Hin Hid]|H].
  - left. split; [by apply elem_of_cons; right|done].
  - destruct (decide (id b = k)) as [<-|Hne].
    + rewrite lookup_insert_eq in H. injection H as <-.
      left. split; [apply elem_of_cons; by left|done].
    + rewrite lookup_insert_ne in H by done. by right.
Qed.

Lemma fill_present l m a : a ∈ l -> is_Some (fill m l !! id a).
Proof.
  revert m a. induction l as [|b l IH]; intros m a Ha.
  - by apply elem_of_nil in Ha.
  - simpl. apply elem_of_cons in Ha as [->|Ha]; [|by apply IH].
    destruct (decide (id b ∈ id <$> l)) as [Hin|Hout].
    + apply list_elem_of_fmap in Hin as (c & Hid & Hc). rewrite Hid.
      by apply IH.
    + rewrite fill_absent by done. rewrite lookup_insert_eq. by eexists.
Qed.

Lemma build_action_map_member acts a :
  NoDup (id <$> iter acts) -> a ∈ iter acts ->
  build_action_map acts !! id a = Some a.
Proof. apply fill_member. Qed.

Lemma build_action_map_origin acts k a :
  build_action_map acts !! k = Some a -> a ∈ iter acts /\ id a = k.
Proof.
  intros H. apply fill_origin in H as [H|H]; [done|].
  by rewrite lookup_empty in H.
Qed.

End ActionMap.

(** ** HumanController *)

Section HumanProperties.
Context `{FL : Float} `{NR : !NumpyRandom} `{TO : !Torch}.
Implicit Types (w : World) (input_map : gmap string Action).

Ltac run_iteration :=
  unfold answer, resolve, HumanController_iteration, HumanController_try,
    try_except, bind, input, lift, gets, ret, print, modify, dict_getitem;
  simpl.

Lemma iteration_accepts input_map w a :
  answer input_map (action_map (self w)) (stdin w (stdin_pos w))
  = Some (Some a) ->
  HumanController_iteration input_map w = (Ok (Some a), accepted w).
Proof.
  run_iteration. destruct (stdin w (stdin_pos w)) as [line|]; [|done].
  simpl. destruct (input_map !! line) as [b|]; [|done].
  simpl. by intros [= ->].
Qed.

Lemma iteration_rejects input_map w :
  answer input_map (action_map (self w)) (stdin w (stdin_pos w))
  = Some None ->
  HumanController_iteration input_map w = (Ok None, rejected w).
Proof.
  run_iteration. destruct (stdin w (stdin_pos w)) as [line|]; [|done].
  simpl. destruct (input_map !! line) as [b|]; [|done].
  simpl. by intros [= ->].
Qed.

Lemma iteration_ends input_map w :
  answer input_map (action_map (self w)) (stdin w (stdin_pos w)) = None ->
  HumanController_iteration input_map w = (Raise EOFError, ended w).
Proof.
  run_iteration. by destruct (stdin w (stdin_pos w)) as [line|].
Qed.

Lemma rejected_output_snoc n :
  rejected_output n ++ ["Enter action: "; "Invalid action"]
  = rejected_output (S n).
Proof. induction n as [|n IH]; [done|]. simpl in *. by rewrite IH. Qed.

(** The world after [n] rejected tokens. *)
Lemma rejected_iter_fields n w :
  let w' := Nat.iter n rejected w in
  self w' = self w /\ model w' = model w /\ grad w' = grad w /\
  numpy_random w' = numpy_random w /\ files w' = files w /\
  stdin w' = stdin w /\ stdin_pos w' = stdin_pos w + n /\
  stdout w' = stdout w ++ rejected_output n.
Proof.
  induction n as [|n IH]; simpl.
  - by rewrite Nat.add_0_r, app_nil_r.
  - destruct IH as (-> & -> & -> & -> & -> & -> & -> & ->).
    repeat split; [lia|].
    rewrite <- !app_assoc. f_equal. exact (rejected_output_snoc n).
Qed.

Lemma rejected_iter_shift n w :
  Nat.iter n rejected (rejected w) = rejected (Nat.iter n rejected w).
Proof. induction n as [|n IH]; simpl; [done|by rewrite IH]. Qed.

(** What the loop amounts to, whenever it stops within its fuel: some
    number of rejected tokens, then an accepted one or the end of the
    input. *)
Lemma loop_outcome input_map fuel : forall ignored w r w',
  HumanController_get_action input_map fuel ignored w = Some (r, w') ->
  exists n, n < fuel /\
    (forall i, i < n ->
       answer input_map (action_map (self w)) (stdin w (stdin_pos w + i))
       = Some None) /\
    ((exists a, r = Ok a /\ w' = accepted (Nat.iter n rejected w) /\
        answer input_map (action_map (self w)) (stdin w (stdin_pos w + n))
        = Some (Some a)) \/
     (r = Raise EOFError /\ w' = ended (Nat.iter n rejected w) /\
      answer input_map (action_map (self w)) (stdin w (stdin_pos w + n))
      = None)).
Proof.
  induction fuel as [|fuel IH]; intros ignored w r w' H; simpl in H; [done|].
  destruct (answer input_map (action_map (self w)) (stdin w (stdin_pos w)))
    as [[b|]|] eqn:E.
  - rewrite (iteration_accepts _ _ _ E) in H. injection H as <- <-.
    exists 0. rewrite Nat.add_0_r. split; [lia|]. split; [intros; lia|].
    left. by exists b.
  - rewrite (iteration_rejects _ _ E) in H.
    apply IH in H as (n & Hn & Hrej & Hend). simpl in Hrej, Hend.
    exists (S n). split; [lia|]. split.
    + intros [|i] Hi; [by rewrite Nat.add_0_r|].
      rewrite Nat.add_succ_r. apply Hrej. lia.
    + simpl. rewrite <- rejected_iter_shift, Nat.add_succ_r. done.
  - rewrite (iteration_ends _ _ E) in H. injection H as <- <-.
    exists 0. rewrite Nat.add_0_r. split; [lia|]. split; [intros; lia|].
    by right.
Qed.

Lemma loop_returns input_map n : forall fuel ignored w a,
  (forall i, i < n ->
     answer input_map (action_map (self w)) (stdin w (stdin_pos w + i))
     = Some None) ->
  answer input_map (action_map (self w)) (stdin w (stdin_pos w + n))
  = Some (Some a) ->
  n < fuel ->
  HumanController_get_action input_map fuel ignored w
  = Some (Ok a, accepted (Nat.iter n rejected w)).
Proof.
  induction n as [|n IH]; intros fuel ignored w a Hrej Hacc Hfuel;
    (destruct fuel as [|fuel]; [lia|]); simpl.
  - rewrite Nat.add_0_r in Hacc. by rewrite (iteration_accepts _ _ _ Hacc).
  - rewrite iteration_rejects
      by (specialize (Hrej 0); rewrite Nat.add_0_r in Hrej; apply Hrej; lia).
    rewrite (IH fuel ignored (rejected w) a).
    + by rewrite rejected_iter_shift.
    + intros i Hi. simpl. rewrite <- Nat.add_succ_r. apply Hrej. lia.
    + simpl. by rewrite <- Nat.add_succ_r.
    + lia.
Qed.

Lemma loop_ends input_map n : forall fuel ignored w,
  (forall i, i < n ->
     answer input_map (action_map (self w)) (stdin w (stdin_pos w + i))
     = Some None) ->
  answer input_map (action_map (self w)) (stdin w (stdin_pos w + n)) = None ->
  n < fuel ->
  HumanController_get_action input_map fuel ignored w
  = Some (Raise EOFError, ended (Nat.iter n rejected w)).
Proof.
  induction n as [|n IH]; intros fuel ignored w Hrej Hend Hfuel;
    (destruct fuel as [|fuel]; [lia|]); simpl.
  - rewrite Nat.add_0_r in Hend. by rewrite (iteration_ends _ _ Hend).
  - rewrite iteration_rejects
      by (specialize (Hrej 0); rewrite Nat.add_0_r in Hrej; apply Hrej; lia).
    rewrite (IH fuel ignored (rejected w)).
    + by rewrite rejected_iter_shift.
    + intros i Hi. simpl. rewrite <- Nat.add_succ_r. apply Hrej. lia.
    + simpl. by rewrite <- Nat.add_succ_r.
    + lia.
Qed.

Lemma loop_still_prompting input_map fuel : forall ignored w,
  (forall i, i < fuel ->
     answer input_map (action_map (self w)) (stdin w (stdin_pos w + i))
     = Some None) ->
  HumanController_get_action input_map fuel ignored w = None.
Proof.
  induction fuel as [|fuel IH]; intros ignored w Hrej; simpl; [done|].
  rewrite iteration_rejects
    by (specialize (Hrej 0); rewrite Nat.add_0_r in Hrej; apply Hrej; lia).
  apply IH. intros i Hi. simpl. rewrite <- Nat.add_succ_r. apply Hrej. lia.
Qed.

(** Only the end of the input makes the loop raise. *)
Lemma loop_raises_only_EOFError input_map fuel ignored w e w' :
  HumanController_get_action input_map fuel ignored w = Some (Raise e, w') ->
  e = EOFError.
Proof.
  intros H. apply loop_outcome in H as (n & _ & _ & [(a & ? & _)|(? & _)]);
    congruence.
Qed.

Lemma loop_ignores_state input_map fuel : forall s1 s2 w,
  HumanController_get_action input_map fuel s1 w
  = HumanController_get_action input_map fuel s2 w.
Proof.
  induction fuel as [|fuel IH]; intros s1 s2 w; simpl; [done|].
  destruct (HumanController_iteration input_map w) as [[[a|]|e0] w0]; auto.
Qed.

(** A returned action is the resolution of the last token read. *)
Lemma loop_result_resolved input_map fuel ignored w a w' :
  HumanController_get_action input_map fuel ignored w = Some (Ok a, w') ->
  exists n, n < fuel /\ w' = accepted (Nat.iter n rejected w) /\
    answer input_map (action_map (self w)) (stdin w (stdin_pos w + n))
    = Some (Some a) /\
    forall i, i < n ->
      answer input_map (action_map (self w)) (stdin w (stdin_pos w + i))
      = Some None.
Proof.
  intros H.
  apply loop_outcome in H as (n & Hn & Hrej & [(b & Hb & Hw & Hacc)|(? & _)]);
    [|done].
  injection Hb as <-. by exists n.
Qed.

Lemma errors_printed_rejected out n :
  errors_printed (out ++ rejected_output n ++ ["Enter action: "])
  = errors_printed out + n.
Proof.
  unfold errors_printed. rewrite !count_occ_app. simpl.
  assert (count_occ String.eq_dec (rejected_output n) "Invalid action" = n)
    as -> by (induction n as [|n IH]; simpl; [done|by rewrite IH]).
  lia.
Qed.

(** The loop touches the terminal only. *)
Lemma loop_frame input_map fuel ignored w r w' :
  HumanController_get_action input_map fuel ignored w = Some (r, w') ->
  self w' = self w /\ model w' = model w /\ grad w' = grad w /\
  numpy_random w' = numpy_random w /\ files w' = files w.
Proof.
  intros H.
  apply loop_outcome in H as (n & _ & _ & [(a & _ & -> & _)|(_ & -> & _)]);
    destruct (rejected_iter_fields n w) as (? & ? & ? & ? & ? & _); done.
Qed.

End HumanProperties.

(** ** The network *)

Section NetworkProperties.
Context `{FL : Float}.
Implicit Types (l : Linear) (net : DQN) (x v : list float).

Lemma relu_length v : length (relu v) = length v.
Proof. apply List.length_map. Qed.

Lemma softmax_length v : length (softmax v) = length v.
Proof. unfold softmax. by rewrite !List.length_map. Qed.

Lemma affine_length l x :
  Linear_shaped l -> length (affine l x) = out_features l.
Proof.
  intros (Hw & Hb & _). unfold affine.
  rewrite length_zip_with, List.length_map, Hw, Hb. lia.
Qed.

Lemma Linear_init_shaped i o values : Linear_shaped (Linear_init i o values).
Proof.
  unfold Linear_shaped, Linear_init; simpl.
  rewrite !List.length_map, List.length_seq. repeat split.
  apply List.Forall_forall. intros row Hrow.
  apply List.in_map_iff in Hrow as (r & <- & _).
  by rewrite List.length_map, List.length_seq.
Qed.

Lemma DQN_init_shaped input_size output_size values :
  DQN_shaped input_size output_size (DQN_init input_size output_size values).
Proof.
  unfold DQN_shaped, DQN_init; simpl.
  repeat split; try apply Linear_init_shaped.
Qed.

Lemma Linear_forward_fits l x :
  length x = in_features l -> Linear_forward l x = Ok (affine l x).
Proof. intros H. unfold Linear_forward. by rewrite decide_True. Qed.

Lemma Linear_forward_misfits l x :
  length x ≠ in_features l -> Linear_forward l x = Raise RuntimeError.
Proof. intros H. unfold Linear_forward. by rewrite decide_False. Qed.

(** On an input of the right size every layer accepts its input. *)
Lemma DQN_apply_shaped input_size output_size net x :
  DQN_shaped input_size output_size net -> length x = input_size ->
  DQN_apply net x
  = Ok (softmax (affine (fc3 net) (relu (affine (fc2 net)
          (relu (affine (fc1 net) x)))))).
Proof.
  intros ((I1 & O1 & S1) & (I2 & O2 & S2) & (I3 & O3 & S3)) Hx.
  unfold DQN_apply.
  rewrite Linear_forward_fits by congruence.
  rewrite Linear_forward_fits
    by (rewrite relu_length, affine_length by done; congruence).
  rewrite Linear_forward_fits
    by (rewrite relu_length, affine_length by done; congruence).
  done.
Qed.

Lemma DQN_apply_length input_size output_size net x y :
  DQN_shaped input_size output_size net ->
  DQN_apply net x = Ok y -> length y = output_size.
Proof.
  intros Hs. pose proof Hs as ((I1 & O1 & S1) & (I2 & O2 & S2) & (I3 & O3 & S3)).
  destruct (decide (length x = input_size)) as [Hx|Hx].
  - rewrite (DQN_apply_shaped _ _ _ _ Hs Hx). intros [= <-].
    rewrite softmax_length, affine_length by done. done.
  - unfold DQN_apply. rewrite Linear_forward_misfits by congruence. done.
Qed.

Lemma DQN_apply_misfits input_size output_size net x :
  DQN_shaped input_size output_size net -> length x ≠ input_size ->
  DQN_apply net x = Raise RuntimeError.
Proof.
  intros ((I1 & _) & _) Hx. unfold DQN_apply.
  rewrite Linear_forward_misfits by congruence. done.
Qed.

(** *** argmax and max *)

Section Order.
Context `{FO : !FloatOrder}.

Lemma flt_asym a b : flt a b = true -> flt b a = false.
Proof.
  intros H. destruct (flt b a) eqn:E; [|done].
  pose proof (flt_trans _ _ _ H E) as C. by rewrite flt_irrefl in C.
Qed.

(** Not below [b], and [b] below [c]: then below [c]. *)
Lemma flt_le_lt a b c : flt b a = false -> flt b c = true -> flt a c = true.
Proof.
  intros H1 H2. destruct (flt_cotrans b a c H2) as [H|H]; [congruence|done].
Qed.

Lemma argmax_from_first_max r : forall p best_i best,
  first_max p best_i -> p !! best_i = Some best ->
  first_max (p ++ r) (argmax_from best_i best (length p) r).
Proof.
  induction r as [|x r IH]; intros p best_i best Hfm Hbest; simpl.
  - by rewrite app_nil_r.
  - destruct Hfm as (b & Hb & Hmax & Hfirst).
    assert (b = best) as -> by congruence.
    rewrite cons_middle, app_assoc.
    replace (S (length p)) with (length (p ++ [x]))
      by (rewrite length_app; simpl; lia).
    destruct (flt best x) eqn:E; apply IH.
    + exists x. split; [by apply list_lookup_middle|]. split.
      * intros j y [[Hj Hy]|[-> <-]]%lookup_snoc_Some; [|apply flt_irrefl].
        apply flt_asym. eapply flt_le_lt; [by eapply Hmax|done].
      * intros j y Hj [[_ Hy]|[-> _]]%lookup_snoc_Some; [|lia].
        eapply flt_le_lt; [by eapply Hmax|done].
    + by apply list_lookup_middle.
    + exists best. split.
      { rewrite lookup_app_l; [done|by eapply lookup_lt_Some]. }
      split.
      * intros j y [[Hj Hy]|[-> <-]]%lookup_snoc_Some; [by eapply Hmax|done].
      * intros j y Hj [[_ Hy]|[-> _]]%lookup_snoc_Some; [by eapply Hfirst|].
        apply lookup_lt_Some in Hb. lia.
    + rewrite lookup_app_l; [done|by eapply lookup_lt_Some].
Qed.

Lemma argmax_first_max v i :
  argmax v = Ok i -> (0 <= i)%Z /\ first_max v (Z.to_nat i).
Proof.
  destruct v as [|x r]; [done|]. simpl. intros [= <-].
  split; [lia|]. rewrite Nat2Z.id.
  apply (argmax_from_first_max r [x] 0 x); [|done].
  exists x. split; [done|]. split.
  - intros [|j] y; simpl; [intros [= <-]; apply flt_irrefl|done].
  - intros; lia.
Qed.

Lemma tensor_max_is_max v m :
  tensor_max v = Ok m -> m ∈ v /\ forall y, y ∈ v -> flt m y = false.
Proof.
  destruct v as [|x r]; [done|]. simpl. intros [= <-].
  assert (forall r b, let m := foldl (fun b y => if flt b y then y else b) b r in
            (m = b \/ m ∈ r) /\ flt m b = false /\
            forall y, y ∈ r -> flt m y = false) as G.
  { clear x r. intros r. induction r as [|y r IH]; intros b; simpl.
    - split; [by left|]. split; [apply flt_irrefl|]. by intros y ?%elem_of_nil.
    - destruct (flt b y) eqn:E.
      + destruct (IH y) as (Hin & Hy & Hr). split; [|split].
        * right. destruct Hin as [->|Hin]; [by left|by right].
        * match goal with |- ?g = false => destruct g eqn:E2 end; [|done].
          pose proof (flt_trans _ _ _ E2 E) as C. congruence.
        * intros z [->|Hz]%elem_of_cons; [done|by apply Hr].
      + destruct (IH b) as (Hin & Hb & Hr). split; [|split].
        * destruct Hin as [->|Hin]; [by left|right; by right].
        * done.
        * intros z [->|Hz]%elem_of_cons; [|by apply Hr].
          match goal with |- ?g = false => destruct g eqn:E2 end; [|done].
          pose proof (flt_le_lt _ _ _ Hb E2) as C. congruence. }
  destruct (G r x) as (Hin & Hx & Hr). split.
  - destruct Hin as [->|Hin]; [by left|by right].
  - intros y [->|Hy]%elem_of_cons; [done|by apply Hr].
Qed.

End Order.

Lemma argmax_in_range v i : argmax v = Ok i -> (0 <= i < len v)%Z.
Proof.
  destruct v as [|x r]; [done|]. simpl. intros [= <-].
  assert (forall r bi b i, bi < i -> argmax_from bi b i r < i + length r) as G.
  { clear. induction r as [|y r IH]; intros bi b i Hi; simpl; [lia|].
    destruct (flt b y).
    - specialize (IH i y (S i)). lia.
    - specialize (IH bi b (S i)). lia. }
  specialize (G r 0 x 1). unfold len. simpl. lia.
Qed.

End NetworkProperties.

(** ** The framework instance meets the laws *)

Section InstanceLaws.
#[local] Existing Instance Q_Float.
#[local] Existing Instance LCG_Random.
#[local] Existing Instance Q_Torch.

Lemma Q_lt_spec (x y : Q) : Q_lt x y = true <-> (x < y)%Q.
Proof.
  unfold Q_lt. rewrite negb_true_iff. split.
  - intros H. apply Qnot_le_lt. intros Hle.
    apply Qle_bool_iff in Hle. congruence.
  - intros H. destruct (Qle_bool y x) eqn:E; [|done].
    apply Qle_bool_iff in E. lra.
Qed.

Lemma Q_lt_false (x y : Q) : Q_lt x y = false <-> (y <= x)%Q.
Proof.
  unfold Q_lt. rewrite negb_false_iff. apply Qle_bool_iff.
Qed.

Lemma Q_FloatOrder : FloatOrder.
Proof.
  split; simpl.
  - intros x. apply Q_lt_false. lra.
  - intros x y z ?%Q_lt_spec ?%Q_lt_spec. apply Q_lt_spec. lra.
  - intros x y z ?%Q_lt_spec. destruct (Qlt_le_dec x y) as [Hxy|Hyx].
    + left. by apply Q_lt_spec.
    + right. apply Q_lt_spec. lra.
Qed.

Lemma lcg_next_range s : (0 <= lcg_next s < 2147483648)%Z.
Proof. unfold lcg_next. apply Z.mod_pos_bound. lia. Qed.

Lemma LCG_RandomLaws : RandomLaws.
Proof.
  split; simpl.
  - intros g. apply Q_lt_false. pose proof (lcg_next_range g).
    unfold Qle; simpl. lia.
  - intros g. apply Q_lt_spec. pose proof (lcg_next_range g).
    unfold Qlt; simpl. lia.
  - intros n g Hn.
    pose proof (Z.mod_pos_bound (lcg_next g) (Z.of_nat n)). lia.
Qed.

Lemma Q_PickleLaws : PickleLaws.
Proof. by split. Qed.

End InstanceLaws.

(** Unfolds the monadic plumbing of the method bodies. *)
Ltac run_methods :=
  unfold DQNTrainerController_get_action, DQNPlayerController_get_action,
    DQNTrainerController_train, DQNTrainerController_evaluate,
    DQN_save, DQN_load, DQN_forward, np_random_rand, np_random_choice,
    torch_save, torch_load, zero_grad, loss_backward, optimizer_step,
    bind, gets, lift, ret, modify, discard in *.

(** ** Method calls *)

Section MethodProperties.
Context `{FL : Float} `{NR : !NumpyRandom} `{TO : !Torch}.
Implicit Types (w : World) (x q : list float) (state : TetrisState).

(** No call replaces or updates the controller object. *)
Lemma call_keeps_self (fuel : nat) (m : method) w r w' :
  call fuel m w = Some (r, w') -> self w' = self w.
Proof.
  destruct m as [state|state action next_state reward|state|path|path];
    simpl; intros H.
  - unfold get_action in H. destruct (kind (self w)) as [input_map|epsilon|].
    + destruct (HumanController_get_action input_map fuel state w)
        as [[r0 w0]|] eqn:E; [|done].
      apply loop_frame in E as (Hself & _).
      destruct r0; simpl in H; by simplify_eq.
    + run_methods. simpl in H.
      repeat (case_match; simplify_eq/=); done.
    + run_methods. simpl in H.
      repeat (case_match; simplify_eq/=); done.
  - destruct (kind (self w)); [by simplify_eq| |by simplify_eq].
    run_methods. simpl in H.
    repeat (case_match; simplify_eq/=); done.
  - destruct (kind (self w)); simpl in H; by simplify_eq.
  - run_methods. simpl in H. by simplify_eq.
  - run_methods. simpl in H.
    repeat (case_match; simplify_eq/=); done.
Qed.

Lemma tensor_setitem_in_range q (i : Z) (v : float) :
  (0 <= i < len q)%Z -> tensor_setitem q i v = Ok (<[Z.to_nat i := v]> q).
Proof.
  intros Hi. unfold tensor_setitem, len in *. cbv zeta.
  assert ((i <? 0)%Z = false) as E by lia. rewrite !E.
  rewrite decide_True by lia. done.
Qed.

(** *** Line 105: [self.actions[...]] *)

(** On an action set the player controller never returns an action: once
    the forward pass and the argmax have succeeded, subscripting the set
    raises [TypeError]. *)
Lemma DQNPlayerController_get_action_set elems state w a :
  actions (self w) = PySet elems ->
  (DQNPlayerController_get_action state w).1 ≠ Ok a.
Proof.
  intros Hset. run_methods. simpl. rewrite Hset.
  destruct (DQN_apply (model w) (to_tensor state)) as [q|e]; [|done].
  simpl. destruct (argmax q); done.
Qed.

(** On a list the player controller returns the element at the argmax
    position, whatever its id. *)
Lemma DQNPlayerController_get_action_list elems state w q i :
  actions (self w) = PyList elems ->
  DQN_apply (model w) (to_tensor state) = Ok q -> argmax q = Ok i ->
  (DQNPlayerController_get_action state w).1
  = match elems !! Z.to_nat i with
    | Some a => Ok a
    | None => Raise IndexError
    end.
Proof.
  intros Hlist Hq Hi. run_methods. simpl. rewrite Hq. simpl. rewrite Hi.
  simpl. rewrite Hlist. simpl. unfold list_getitem.
  apply argmax_in_range in Hi as [Hi _].
  assert ((i <? 0)%Z = false) as E by lia. cbv zeta. rewrite !E.
  by destruct (elems !! Z.to_nat i).
Qed.

(** With [epsilon = 0] the trainer controller always takes the greedy
    branch. *)
Lemma DQNTrainerController_get_action_greedy `{RL : !RandomLaws} state w :
  (DQNTrainerController_get_action f0 state w).1
  = match DQN_apply (model w) (to_tensor state) with
    | Ok q => match argmax q with
              | Ok i => dict_getitem (action_map (self w)) i
              | Raise e => Raise e
              end
    | Raise e => Raise e
    end.
Proof.
  run_methods. pose proof (rand_not_negative (numpy_random w)) as Hu.
  destruct (random_rand (numpy_random w)) as [u g1]. simpl in *.
  rewrite Hu. simpl.
  destruct (DQN_apply (model w) (to_tensor state)) as [q|e]; [|done].
  simpl. destruct (argmax q) as [i|e]; [|done]. simpl.
  by destruct (dict_getitem _ _).
Qed.

(** Loading a state dict into a network of the architecture it was taken
    from succeeds and leaves the network it was taken from. *)
Lemma load_state_dict_same_architecture (i o : nat) (saved net : DQN) :
  DQN_shaped i o saved -> DQN_shaped i o net ->
  load_state_dict net (state_dict saved) = (Ok tt, saved).
Proof.
  intros ((I1 & O1 & W1 & B1 & _) & (I2 & O2 & W2 & B2 & _)
          & (I3 & O3 & W3 & B3 & _))
         ((J1 & P1 & _) & (J2 & P2 & _) & (J3 & P3 & _)).
  unfold load_state_dict.
  rewrite (bool_decide_eq_true_2 (dom _ = dom _))
    by (unfold state_dict; by rewrite !dom_insert_L).
  destruct saved as [[i1 o1 w1 b1] [i2 o2 w2 b2] [i3 o3 w3 b3]].
  simpl in *. unfold load_Linear, load_weight, load_bias, state_dict. simpl.
  repeat (rewrite lookup_insert_eq || (rewrite lookup_insert_ne by done)).
  simpl. subst.
  rewrite !decide_True by congruence. simpl.
  repeat f_equal; congruence.
Qed.

End MethodProperties.

(** * The properties of the specification *)

Section Specification.
Context `{FL : Float} `{NR : !NumpyRandom} `{TO : !Torch}.
Implicit Types (w : World) (x q : list float) (state : TetrisState).

(** C5. On an input vector of the network's input size, [DQN.forward]
    returns softmax(fc3(relu(fc2(relu(fc1(x)))))) for layers of shapes
    input -> 128, 128 -> 64 and 64 -> output (the shapes [DQN.__init__]
    builds, see [DQN_init_shaped]); the hidden vectors have 128 and 64
    entries and the result has [output_size] entries, the number of
    actions the network is built for.  The
    call changes nothing in the world and its result is determined by the
    current parameters and the input. *)
Theorem DQN_forward_architecture (input_size output_size : nat) w x :
  DQN_shaped input_size output_size (model w) ->
  length x = input_size ->
  let h1 := relu (affine (fc1 (model w)) x) in
  let h2 := relu (affine (fc2 (model w)) h1) in
  let y := softmax (affine (fc3 (model w)) h2) in
  DQN_forward x w = (Ok y, w) /\
  length h1 = 128 /\ length h2 = 64 /\ length y = output_size /\
  forall w', model w' = model w -> (DQN_forward x w').1 = Ok y.
Proof.
  intros Hs Hx h1 h2 y.
  pose proof Hs as ((I1 & O1 & S1) & (I2 & O2 & S2) & (I3 & O3 & S3)).
  assert (DQN_apply (model w) x = Ok y) as Happly
    by apply (DQN_apply_shaped _ _ _ _ Hs Hx).
  split; [|split; [|split; [|split]]].
  - unfold DQN_forward, bind, gets, lift. by rewrite Happly.
  - unfold h1. rewrite relu_length, affine_length by done. done.
  - unfold h2. rewrite relu_length, affine_length by done. done.
  - unfold y. rewrite softmax_length, affine_length by done. done.
  - intros w' Hw'. unfold DQN_forward, bind, gets, lift. simpl.
    by rewrite Hw', Happly.
Qed.

(** C9. [DQNPlayerController.get_action] leaves the whole world as it
    found it, whatever it returns or raises: the network parameters and
    their gradients, the controller's action set and action map, and
    numpy's random state. *)
Theorem DQNPlayerController_get_action_frame state w :
  let w' := (DQNPlayerController_get_action state w).2 in
  w' = w /\ model w' = model w /\ grad w' = grad w /\
  actions (self w') = actions (self w) /\
  action_map (self w') = action_map (self w) /\
  numpy_random w' = numpy_random w.
Proof.
  assert ((DQNPlayerController_get_action state w).2 = w) as E.
  { unfold DQNPlayerController_get_action, DQN_forward, bind, gets, lift.
    simpl. destruct (DQN_apply (model w) (to_tensor state)) as [q|e]; [|done].
    simpl. destruct (argmax q); done. }
  simpl. by rewrite E.
Qed.

(** C7. [HumanController.get_action] ignores the state it is given and
    reads tokens one at a time until one resolves, through the input map,
    to an id of the action map.  An unrecognized token never makes it
    raise: the [KeyError] is caught, one error message is printed and the
    loop prompts again.  If the first resolving token comes after [n]
    others, the call returns its action, having read [n + 1] tokens and
    printed [n] error messages; as long as tokens come and none resolves
    the loop keeps prompting.  The one exception that escapes is the
    [EOFError] of [input], when the input ends before a token resolves. *)
Theorem HumanController_get_action_retries
    (input_map : gmap string Action) (fuel : nat) state w :
  let reads i :=
    answer input_map (action_map (self w)) (stdin w (stdin_pos w + i)) in
  (forall r w',
     HumanController_get_action input_map fuel state w = Some (r, w') ->
     (exists a, r = Ok a) \/ r = Raise EOFError) /\
  (forall state',
     HumanController_get_action input_map fuel state' w
     = HumanController_get_action input_map fuel state w) /\
  (forall n a,
     (forall i, i < n -> reads i = Some None) ->
     reads n = Some (Some a) ->
     n < fuel ->
     exists w',
       HumanController_get_action input_map fuel state w = Some (Ok a, w') /\
       stdin_pos w' = stdin_pos w + n + 1 /\
       stdout w' = stdout w ++ rejected_output n ++ ["Enter action: "] /\
       errors_printed (stdout w') = errors_printed (stdout w) + n) /\
  (forall n,
     (forall i, i < n -> reads i = Some None) ->
     reads n = None ->
     n < fuel ->
     exists w',
       HumanController_get_action input_map fuel state w
       = Some (Raise EOFError, w') /\
       stdin_pos w' = stdin_pos w + n /\
       stdout w' = stdout w ++ rejected_output n ++ ["Enter action: "] /\
       errors_printed (stdout w') = errors_printed (stdout w) + n) /\
  ((forall i, i < fuel -> reads i = Some None) ->
   HumanController_get_action input_map fuel state w = None).
Proof.
  intros reads. split; [|split; [|split; [|split]]].
  - intros [a|e] w' H; [left; by exists a|].
    right. f_equal. by eapply loop_raises_only_EOFError.
  - intros state'. apply loop_ignores_state.
  - intros n a Hrej Hacc Hfuel.
    exists (accepted (Nat.iter n rejected w)).
    split; [by apply loop_returns|].
    destruct (rejected_iter_fields n w) as (_ & _ & _ & _ & _ & _ & Hpos & Hout).
    simpl. rewrite Hpos, Hout.
    split; [lia|]. rewrite <- app_assoc. split; [done|].
    apply errors_printed_rejected.
  - intros n Hrej Hend Hfuel.
    exists (ended (Nat.iter n rejected w)).
    split; [by apply loop_ends|].
    destruct (rejected_iter_fields n w) as (_ & _ & _ & _ & _ & _ & Hpos & Hout).
    simpl. rewrite Hpos, Hout.
    split; [done|]. rewrite <- app_assoc. split; [done|].
    apply errors_printed_rejected.
  - apply loop_still_prompting.
Qed.

(** C10. Whenever [HumanController.get_action] returns, the action it
    returns belongs to the action set given at construction: it is the
    entry of the controller's own action map under the id of the action
    that the input map gives for the last token read.  A token whose
    mapped action has an id that no action of the set has is handled as a
    token missing from the input map: the error is printed and the loop
    prompts again. *)
Theorem HumanController_result_in_action_set
    (acts : container) (input_map : gmap string Action) (fuel : nat) state w :
  self w = HumanController_init acts input_map ->
  (forall a w',
     HumanController_get_action input_map fuel state w = Some (Ok a, w') ->
     a ∈ iter acts /\
     exists token b,
       stdin w (stdin_pos w' - 1) = Some token /\
       input_map !! token = Some b /\
       action_map (self w) !! id b = Some a /\ id a = id b) /\
  (forall token b,
     stdin w (stdin_pos w) = Some token ->
     input_map !! token = Some b ->
     (forall a, a ∈ iter acts -> id a ≠ id b) ->
     HumanController_iteration input_map w = (Ok None, rejected w)) /\
  (forall token,
     stdin w (stdin_pos w) = Some token ->
     input_map !! token = None ->
     HumanController_iteration input_map w = (Ok None, rejected w)).
Proof.
  intros Hself. split; [|split].
  - intros a w' H.
    apply loop_result_resolved in H as (n & _ & -> & Hres & _).
    destruct (rejected_iter_fields n w) as (_ & _ & _ & _ & _ & _ & Hpos & _).
    assert (stdin_pos (accepted (Nat.iter n rejected w)) - 1 = stdin_pos w + n)
      as -> by (simpl; lia).
    unfold answer, resolve in Hres.
    destruct (stdin w (stdin_pos w + n)) as [token|] eqn:Htoken; [|done].
    simpl in Hres.
    destruct (input_map !! token) as [b|] eqn:Hb; [|done].
    injection Hres as Hres.
    assert (a ∈ iter acts /\ id a = id b) as [Hin Hid].
    { apply build_action_map_origin. by rewrite Hself in Hres. }
    split; [done|]. by exists token, b.
  - intros token b Htoken Hb Habsent. apply iteration_rejects.
    unfold answer, resolve. rewrite Htoken. simpl.
    rewrite Hb, Hself. simpl. unfold build_action_map.
    rewrite fill_absent; [by rewrite lookup_empty|].
    intros (a & Hid & Ha)%list_elem_of_fmap. by apply (Habsent a).
  - intros token Htoken Hnone. apply iteration_rejects.
    unfold answer, resolve. rewrite Htoken. simpl. by rewrite Hnone.
Qed.

(** C6. For an action set with unique ids and any controller variant, the
    map built by [Controller.__init__] sends the id of every action of the
    set to that action; and no call on the controller or its network
    (get_action, train, evaluate, save, load) changes the controller's
    action map or its action set. *)
Theorem action_map_built_once (acts : container) (k : variant) :
  NoDup (id <$> iter acts) ->
  (forall a, a ∈ iter acts ->
     dict_getitem (action_map (Controller_init acts k)) (id a) = Ok a) /\
  (forall fuel m w r w',
     self w = Controller_init acts k ->
     call fuel m w = Some (r, w') ->
     action_map (self w') = build_action_map acts /\
     actions (self w') = acts /\
     forall a, a ∈ iter acts ->
       dict_getitem (action_map (self w')) (id a) = Ok a).
Proof.
  intros Hnd.
  assert (forall a, a ∈ iter acts ->
            dict_getitem (build_action_map acts) (id a) = Ok a) as Hmap.
  { intros a Ha. unfold dict_getitem.
    by rewrite (build_action_map_member acts a Hnd Ha). }
  split; [exact Hmap|].
  intros fuel m w r w' Hself Hcall.
  apply call_keeps_self in Hcall. rewrite Hcall, Hself. simpl. auto.
Qed.

(** C3. [DQNTrainerController.get_action] draws one number [u] from
    [rand()].  If [u < epsilon] it draws an index into [list(actions)] and
    returns the action there, a member of the action set; every member is
    at exactly one index, so a uniform index gives a uniform member.
    Otherwise it runs the forward pass on the state's feature vector and
    returns the action map's entry for the argmax index, an action of the
    set whose id is the index of the first maximum of the scores.  With
    [epsilon = 1] the call returns a member of the action set. *)
Theorem DQNTrainerController_get_action_epsilon_greedy
    `{FO : !FloatOrder} `{RL : !RandomLaws}
    (acts : container) (epsilon : float) state w :
  self w = DQNTrainerController_init acts epsilon ->
  NoDup (iter acts) ->
  let u := (random_rand (numpy_random w)).1 in
  let g1 := (random_rand (numpy_random w)).2 in
  (flt u epsilon = true -> iter acts ≠ [] ->
   let k := (random_index (length (iter acts)) g1).1 in
   let g2 := (random_index (length (iter acts)) g1).2 in
   exists a, iter acts !! k = Some a /\ a ∈ iter acts /\
     (forall k', iter acts !! k' = Some a -> k' = k) /\
     DQNTrainerController_get_action epsilon state w
     = (Ok a, set_numpy_random g2 w)) /\
  (forall a, a ∈ iter acts ->
     exists k, k < length (iter acts) /\ iter acts !! k = Some a) /\
  (flt u epsilon = false ->
   forall q i,
     DQN_apply (model w) (to_tensor state) = Ok q -> argmax q = Ok i ->
     first_max q (Z.to_nat i) /\ (0 <= i < len q)%Z /\
     (forall a, (DQNTrainerController_get_action epsilon state w).1 = Ok a ->
        id a = i /\ a ∈ iter acts) /\
     (forall b, b ∈ iter acts -> id b = i ->
        exists a, DQNTrainerController_get_action epsilon state w
                  = (Ok a, set_numpy_random g1 w) /\
                  id a = i /\ a ∈ iter acts)) /\
  (epsilon = f1 -> iter acts ≠ [] ->
   exists a, (DQNTrainerController_get_action epsilon state w).1 = Ok a /\
             a ∈ iter acts).
Proof.
  intros Hself Hnd u g1.
  assert (forall k g', iter acts ≠ [] ->
            random_index (length (iter acts)) g1 = (k, g') ->
            exists a, iter acts !! k = Some a) as Hdraw.
  { intros k g' Hne Hk. apply lookup_lt_is_Some_2.
    replace k with (random_index (length (iter acts)) g1).1 by by rewrite Hk.
    apply index_in_range. destruct (iter acts); [done|simpl; lia]. }
  assert (flt u epsilon = true -> iter acts ≠ [] ->
          exists a, iter acts !! (random_index (length (iter acts)) g1).1 = Some a /\
            DQNTrainerController_get_action epsilon state w
            = (Ok a, set_numpy_random (random_index (length (iter acts)) g1).2 w))
    as Hexplore.
  { intros Hu Hne. subst u g1. run_methods.
    destruct (random_rand (numpy_random w)) as [u g1] eqn:Erand. simpl in *.
    rewrite Hu. simpl. rewrite Hself. simpl.
    destruct (random_index (length (iter acts)) g1) as [k g2] eqn:Eidx.
    destruct (Hdraw k g2 Hne eq_refl) as [a Ha]. exists a. simpl.
    split; [done|]. rewrite Ha. by destruct (iter acts). }
  split; [|split; [|split]].
  - intros Hu Hne k g2. destruct (Hexplore Hu Hne) as (a & Ha & Hrun).
    exists a. split; [done|]. split; [by eapply list_elem_of_lookup_2|].
    split; [|done]. intros k' Hk'. by eapply NoDup_lookup.
  - intros a (k & Hk)%list_elem_of_lookup. exists k.
    split; [by eapply lookup_lt_Some|done].
  - intros Hu q i Hq Hi.
    destruct (argmax_first_max q i Hi) as [_ Hfm].
    split; [done|]. split; [by apply argmax_in_range|].
    assert (DQNTrainerController_get_action epsilon state w
            = (dict_getitem (build_action_map acts) i, set_numpy_random g1 w))
      as Hrun.
    { subst u g1. run_methods.
      destruct (random_rand (numpy_random w)) as [u g1] eqn:Erand. simpl in *.
      rewrite Hu. simpl. rewrite Hq. simpl. rewrite Hi. simpl.
      rewrite Hself. simpl. by destruct (dict_getitem _ _). }
    rewrite Hrun. unfold dict_getitem. split.
    + intros a. simpl.
      destruct (build_action_map acts !! i) as [a'|] eqn:E; [|done].
      intros [= <-]. apply build_action_map_origin in E as [? ?]. done.
    + intros b Hb Hid.
      destruct (fill_present (iter acts) ∅ b Hb) as [a Ha].
      rewrite Hid in Ha. exists a. unfold build_action_map. rewrite Ha.
      apply (build_action_map_origin acts) in Ha as [? ?]. done.
  - intros -> Hne.
    destruct (Hexplore (rand_below_one _) Hne) as (a & Ha & Hrun).
    exists a. rewrite Hrun. split; [done|]. by eapply list_elem_of_lookup_2.
Qed.

(** C4. When both forward passes succeed, the scores of the next state
    are not empty and [action.id] indexes the scores, [train] ends
    normally and: the target vector equals [q_values] except at
    [action.id], where it holds [reward + max(next_q_values)] with no
    discount factor; the loss handed to autograd is the mean squared error
    between [q_values] and that target; the gradient accumulator holds
    the gradient of that loss alone; and the parameters are those after
    one step of an Adam optimizer newly built with learning rate 0.001.
    Nothing else in the world changes. *)
Theorem DQNTrainerController_train_step `{FO : !FloatOrder}
    state (action : Action) (next_state : TetrisState) (reward : float) w
    (q_values next_q_values : list float) :
  DQN_apply (model w) (to_tensor state) = Ok q_values ->
  DQN_apply (model w) (to_tensor next_state) = Ok next_q_values ->
  next_q_values ≠ [] ->
  (0 <= id action < len q_values)%Z ->
  exists (m : float) (target : list float),
    (tensor_max next_q_values = Ok m /\ m ∈ next_q_values /\
     forall y, y ∈ next_q_values -> flt m y = false) /\
    (length target = length q_values /\
     target !! Z.to_nat (id action) = Some (fadd reward m) /\
     forall j, j ≠ Z.to_nat (id action) -> target !! j = q_values !! j) /\
    let loss := train_loss state action next_state reward in
    let g := backward loss (model w) in
    let optimizer := Adam_new (model w) (fQ (1 # 1000)) in
    loss (model w) = Ok (MSELoss q_values target) /\
    DQNTrainerController_train state action next_state reward w
    = (Ok tt, set_model (Adam_step optimizer (model w) g).1
                (set_grad (Some g) w)).
Proof.
  intros Hq Hnq Hne Hid.
  destruct (tensor_max next_q_values) as [m|e] eqn:Hmax;
    [|by destruct next_q_values].
  exists m, (<[Z.to_nat (id action) := fadd reward m]> q_values).
  pose proof (tensor_setitem_in_range q_values (id action) (fadd reward m) Hid)
    as Hset.
  split; [|split].
  - split; [done|]. by apply tensor_max_is_max.
  - split; [apply length_insert|]. split.
    + apply list_lookup_insert_eq. unfold len in Hid. lia.
    + intros j Hj. by apply list_lookup_insert_ne.
  - simpl. split.
    + unfold train_loss. by rewrite Hq, Hnq, Hmax, Hset.
    + run_methods. simpl. rewrite Hq, Hnq. simpl. by rewrite Hmax, Hset.
Qed.

(** C8. With a serializer that reads back what it wrote: [save(path)]
    ends normally, and [load(path)] on a network of the same architecture,
    in any later world that still holds the file, ends normally and leaves
    that network with the saved parameters, so its forward pass returns on
    every input exactly what the saved network's returns. *)
Theorem DQN_save_load_round_trip `{PL : !PickleLaws}
    (input_size output_size : nat) (path : string) w (fresh : DQN) :
  DQN_shaped input_size output_size (model w) ->
  DQN_shaped input_size output_size fresh ->
  let w1 := (DQN_save path w).2 in
  (DQN_save path w).1 = Ok tt /\
  forall w2,
    files w2 !! path = files w1 !! path -> model w2 = fresh ->
    DQN_load path w2 = (Ok tt, set_model (model w) w2) /\
    forall x, (DQN_forward x (DQN_load path w2).2).1 = (DQN_forward x w).1.
Proof.
  intros Hs Hf w1. split; [done|].
  intros w2 Hfiles Hmodel.
  assert (DQN_load path w2 = (Ok tt, set_model (model w) w2)) as Hload.
  { subst w1. run_methods. simpl in *.
    rewrite Hfiles, lookup_insert_eq, unpickle_pickle, Hmodel.
    by rewrite (load_state_dict_same_architecture
                  input_size output_size (model w) fresh Hs Hf). }
  split; [done|]. intros x. rewrite Hload. done.
Qed.

End Specification.

(** * The scenarios of the specification, run on the instance *)

Section Scenarios.
#[local] Existing Instance Q_Float.
#[local] Existing Instance LCG_Random.
#[local] Existing Instance Q_Torch.
#[local] Existing Instance Q_FloatOrder.
#[local] Existing Instance LCG_RandomLaws.
#[local] Existing Instance Q_PickleLaws.

(** C1. On the action set {Left, Right, Drop} the forward pass of the
    example network puts its maximum at index 1, and
    [DQNPlayerController.get_action] raises [TypeError] where the
    specification has it return [Right], the action with id 1. *)
Theorem DQNPlayerController_get_action_raises :
  let w := example_world (DQNPlayerController_init (PySet example_actions)) in
  (match DQN_apply (model w) (to_tensor example_state) with
   | Ok q => argmax q
   | Raise e => Raise e
   end) = Ok 1%Z /\
  (DQNPlayerController_get_action example_state w).1 = Raise TypeError.
Proof. split; vm_compute; reflexivity. Qed.

(** C2. On the same network, state and action set {Left, Right, Drop},
    the trainer controller with [epsilon = 0] returns [Right] and the
    player controller raises [TypeError]; given the same actions as the
    list [Right; Left; Drop], the trainer still returns [Right] and the
    player returns [Left]. *)
Theorem DQNTrainer_and_DQNPlayer_disagree :
  let trainer acts := example_world (DQNTrainerController_init acts f0) in
  let player acts := example_world (DQNPlayerController_init acts) in
  ((DQNTrainerController_get_action f0 example_state
      (trainer (PySet example_actions))).1 = Ok Right /\
   (DQNPlayerController_get_action example_state
      (player (PySet example_actions))).1 = Raise TypeError) /\
  ((DQNTrainerController_get_action f0 example_state
      (trainer (PyList [Right; Left; Drop]))).1 = Ok Right /\
   (DQNPlayerController_get_action example_state
      (player (PyList [Right; Left; Drop]))).1 = Ok Left).
Proof. repeat split; vm_compute; reflexivity. Qed.

Lemma DQNTrainerController_get_action_epsilon_greedy_witness :
  exists a,
    (DQNTrainerController_get_action f1 example_state
       (example_world
          (DQNTrainerController_init (PySet example_actions) f1))).1 = Ok a /\
    a ∈ example_actions.
Proof.
  destruct (DQNTrainerController_get_action_epsilon_greedy
              (PySet example_actions) f1 example_state
              (example_world
                 (DQNTrainerController_init (PySet example_actions) f1)))
    as (_ & _ & _ & H).
  - reflexivity.
  - refine (bool_decide_unpack _ _); vm_compute; exact I.
  - apply H; [reflexivity|discriminate].
Defined.

Lemma DQNTrainerController_train_step_witness :
  (DQNTrainerController_train example_state Right next_example_state (fQ 1%Q)
     (example_world
        (DQNTrainerController_init (PySet example_actions) f0))).1 = Ok tt.
Proof.
  edestruct (DQNTrainerController_train_step example_state Right
               next_example_state (fQ 1%Q)
               (example_world
                  (DQNTrainerController_init (PySet example_actions) f0)))
    as (m & target & _ & _ & _ & Hrun).
  - vm_compute. reflexivity.
  - vm_compute. reflexivity.
  - discriminate.
  - vm_compute. split; [discriminate|reflexivity].
  - rewrite Hrun. reflexivity.
Defined.

Lemma DQN_forward_architecture_witness :
  exists y,
    DQN_forward (to_tensor example_state)
      (example_world (DQNPlayerController_init (PySet example_actions)))
    = (Ok y, example_world (DQNPlayerController_init (PySet example_actions)))
    /\ length y = 3.
Proof.
  destruct (DQN_forward_architecture 10 3
              (example_world (DQNPlayerController_init (PySet example_actions)))
              (to_tensor example_state))
    as (Hrun & _ & _ & Hlen & _).
  - apply DQN_init_shaped.
  - reflexivity.
  - eexists. split; [exact Hrun|exact Hlen].
Defined.

Lemma action_map_built_once_witness :
  dict_getitem
    (action_map (Controller_init (PySet example_actions) DQNPlayer)) 1%Z
  = Ok Right.
Proof.
  destruct (action_map_built_once (PySet example_actions) DQNPlayer) as [H _].
  - refine (bool_decide_unpack _ _); vm_compute; exact I.
  - apply (H Right). refine (bool_decide_unpack _ _); vm_compute; exact I.
Defined.

(** The second scenario: the user types [x], then [l]. *)
Lemma HumanController_get_action_retries_witness :
  exists w',
    HumanController_get_action example_input_map 2 example_state
      (example_world
         (HumanController_init (PySet example_actions) example_input_map))
    = Some (Ok Left, w') /\
    errors_printed (stdout w') = 1.
Proof.
  destruct (HumanController_get_action_retries example_input_map 2
              example_state
              (example_world
                 (HumanController_init (PySet example_actions)
                    example_input_map)))
    as (_ & _ & H & _).
  destruct (H 1 Left) as (w' & Hrun & _ & _ & Herr).
  - intros i Hi. assert (i = 0) as -> by lia. vm_compute. reflexivity.
  - vm_compute. reflexivity.
  - lia.
  - exists w'. split; [exact Hrun|exact Herr].
Defined.

(** The input [x], then the end of the input: one error message, then
    the [EOFError] of [input] leaves the loop. *)
Lemma HumanController_get_action_end_of_input :
  (fun r => (r.1, errors_printed (stdout r.2))) <$>
    HumanController_get_action example_input_map 2 example_state
      (ended_world
         (HumanController_init (PySet example_actions) example_input_map))
  = Some (Raise EOFError, 1).
Proof. vm_compute. reflexivity. Qed.

Lemma HumanController_result_in_action_set_witness :
  Left ∈ example_actions.
Proof.
  destruct (HumanController_result_in_action_set (PySet example_actions)
              example_input_map 2 example_state
              (example_world
                 (HumanController_init (PySet example_actions)
                    example_input_map)))
    as (H & _ & _).
  - reflexivity.
  - eapply H. apply (loop_returns example_input_map 1).
    + intros i Hi. assert (i = 0) as -> by lia. vm_compute. reflexivity.
    + vm_compute. reflexivity.
    + lia.
Defined.

Lemma DQN_save_load_round_trip_witness :
  let w := example_world (DQNPlayerController_init (PySet example_actions)) in
  let fresh :=
    DQN_init 10 3
      {| fc1_values := zero_values; fc2_values := zero_values;
         fc3_values := zero_values |} in
  DQN_load "dqn.pt" (set_model fresh (DQN_save "dqn.pt" w).2)
  = (Ok tt, set_model (model w) (set_model fresh (DQN_save "dqn.pt" w).2)).
Proof.
  intros w fresh.
  destruct (DQN_save_load_round_trip 10 3 "dqn.pt" w fresh) as [_ H].
  - apply DQN_init_shaped.
  - apply DQN_init_shaped.
  - apply (H (set_model fresh (DQN_save "dqn.pt" w).2)); reflexivity.
Defined.

End Scenarios.

(** * Further properties of the code *)

(** ** [Controller.__init__] *)

Section ActionMapEntries.
Context `{FL : Float}.
Implicit Types (l : list Action) (m : gmap Z Action) (a : Action).

Local Abbreviation fill := (foldl (fun m a => <[id a := a]> m)).

Lemma fill_dom l m : dom (fill m l) = dom m ∪ list_to_set (id <$> l).
Proof.
  revert m. induction l as [|b l IH]; intros m; simpl.
  - set_solver.
  - rewrite IH, dom_insert_L. set_solver.
Qed.

Lemma size_list_to_set_le (ids : list Z) :
  size (list_to_set ids : gset Z) ≤ length ids /\
  (size (list_to_set ids : gset Z) = length ids -> NoDup ids).
Proof.
  induction ids as [|x ids [IHle IHeq]]; simpl.
  - split; [|constructor]. change (size (∅ : gset Z) ≤ 0).
    by rewrite size_empty.
  - destruct (decide (x ∈ ids)) as [Hin|Hout].
    + assert ({[x]} ∪ list_to_set ids = (list_to_set ids : gset Z)) as ->
        by set_solver.
      split; lia.
    + rewrite size_union by set_solver. rewrite size_singleton.
      split; [lia|]. intros H. constructor; [done|]. apply IHeq. lia.
Qed.

(** X1. The keys of the map built by [Controller.__init__] are exactly the
    ids of the given actions, and every entry is an action of the given
    set stored under its own id.  The map has as many entries as there
    are actions exactly when the ids are unique. *)
Theorem Controller_init_action_map_entries (acts : container) (k : variant) :
  let amap := action_map (Controller_init acts k) in
  dom amap = list_to_set (id <$> iter acts) /\
  (forall key a, amap !! key = Some a -> a ∈ iter acts /\ id a = key) /\
  size amap ≤ length (iter acts) /\
  (size amap = length (iter acts) <-> NoDup (id <$> iter acts)).
Proof.
  simpl.
  assert (dom (build_action_map acts) = list_to_set (id <$> iter acts)) as Hdom.
  { unfold build_action_map. rewrite fill_dom, dom_empty_L. set_solver. }
  assert (size (build_action_map acts)
          = size (list_to_set (id <$> iter acts) : gset Z)) as Hsize
    by (by rewrite <- Hdom, size_dom).
  destruct (size_list_to_set_le (id <$> iter acts)) as [Hle Heq].
  rewrite length_fmap in Hle, Heq.
  split; [done|]. split; [apply build_action_map_origin|].
  split; [lia|]. split.
  - intros H. apply Heq. lia.
  - intros Hnd. rewrite Hsize, size_list_to_set by done. apply length_fmap.
Qed.

(** X2. When ids collide the action met last in the iteration wins: an
    action followed by no other of the same id is the entry of its id,
    and an earlier, different action of that id cannot be looked up. *)
Theorem Controller_init_last_id_wins
    (acts : container) (k : variant) (before after : list Action) a :
  iter acts = before ++ a :: after ->
  id a ∉ id <$> after ->
  dict_getitem (action_map (Controller_init acts k)) (id a) = Ok a /\
  forall b, b ∈ before -> id b = id a -> b ≠ a ->
    dict_getitem (action_map (Controller_init acts k)) (id b) ≠ Ok b.
Proof.
  intros Hiter Hafter. simpl.
  assert (build_action_map acts !! id a = Some a) as Ha.
  { unfold build_action_map. rewrite Hiter, foldl_app. simpl.
    rewrite fill_absent by done. apply lookup_insert_eq. }
  unfold dict_getitem. rewrite Ha. split; [done|].
  intros b _ Hid Hne. rewrite Hid, Ha. congruence.
Qed.

End ActionMapEntries.

(** ** [get_action], every variant *)

Section GetActionProperties.
Context `{FL : Float} `{NR : !NumpyRandom} `{TO : !Torch}.
Implicit Types (w : World) (state : TetrisState) (acts : container).

Lemma list_getitem_member {A} (l : list A) (i : Z) (a : A) :
  list_getitem l i = Ok a -> a ∈ l.
Proof.
  unfold list_getitem. cbv zeta.
  destruct (_ <? 0)%Z; [done|].
  destruct (l !! _) eqn:E; [|done].
  intros [= <-]. by eapply list_elem_of_lookup_2.
Qed.

(** X3. Whatever variant the controller is, an action returned by
    [get_action] is one of the actions given at construction. *)
Theorem get_action_returns_member acts (k : variant) (fuel : nat) state w a :
  self w = Controller_init acts k ->
  fst <$> get_action fuel state w = Some (Ok a) ->
  a ∈ iter acts.
Proof.
  intros Hself. unfold get_action. rewrite Hself. simpl.
  destruct k as [input_map|epsilon|]; simpl.
  - destruct (HumanController_get_action input_map fuel state w)
      as [[r w']|] eqn:E; [|done].
    simpl. intros [= ->].
    apply loop_result_resolved in E as (n & _ & _ & Hres & _).
    unfold answer, resolve in Hres.
    destruct (stdin w (stdin_pos w + n)) as [token|]; [|done]. simpl in Hres.
    destruct (input_map !! token); [|done]. injection Hres as Hres.
    rewrite Hself in Hres. by apply build_action_map_origin in Hres as [? _].
  - run_methods. destruct (random_rand (numpy_random w)) as [u g1]. simpl.
    destruct (flt u epsilon); simpl.
    + rewrite Hself. simpl. destruct (iter acts) as [|b l] eqn:El; [done|].
      destruct (random_index _ g1) as [i g2]. simpl.
      destruct ((b :: l) !! i) eqn:Ei; [|done].
      intros [= <-]. by eapply list_elem_of_lookup_2.
    + destruct (DQN_apply (model w) (to_tensor state)) as [q|e]; [|done].
      simpl. destruct (argmax q) as [i|e]; [|done]. simpl.
      rewrite Hself. simpl. unfold dict_getitem.
      destruct (build_action_map acts !! i) eqn:Ei; [|done].
      intros [= <-]. by apply build_action_map_origin in Ei as [? _].
  - run_methods. simpl.
    destruct (DQN_apply (model w) (to_tensor state)) as [q|e]; [|done].
    simpl. destruct (argmax q) as [i|e]; [|done]. simpl.
    rewrite Hself. simpl. destruct acts as [l|l]; simpl; [done|].
    destruct (list_getitem l i) eqn:Ei; [|done].
    intros [= <-]. by eapply list_getitem_member.
Qed.

(** X4. If no action named by the input map has an id of the action set
    (so in particular when the action set or the input map is empty),
    [HumanController.get_action] never returns an action: however many
    tokens are typed, it is still prompting, until the input ends. *)
Theorem HumanController_get_action_unanswerable
    acts (input_map : gmap string Action) (fuel : nat) state w :
  self w = HumanController_init acts input_map ->
  (forall token b, input_map !! token = Some b -> id b ∉ id <$> iter acts) ->
  (forall a w',
     HumanController_get_action input_map fuel state w ≠ Some (Ok a, w')) /\
  ((forall i, i < fuel -> is_Some (stdin w (stdin_pos w + i))) ->
   HumanController_get_action input_map fuel state w = None).
Proof.
  intros Hself Hnone.
  assert (forall token,
            resolve input_map (action_map (self w)) token = None) as Hrej.
  { intros token. unfold resolve.
    destruct (input_map !! token) as [b|] eqn:E; [|done].
    rewrite Hself. simpl. unfold build_action_map.
    rewrite fill_absent by by eapply Hnone. apply lookup_empty. }
  split.
  - intros a w' H.
    apply loop_result_resolved in H as (n & _ & _ & Hres & _).
    unfold answer in Hres.
    destruct (stdin w (stdin_pos w + n)) as [token|]; [|done].
    simpl in Hres. by rewrite Hrej in Hres.
  - intros Hlines. apply loop_still_prompting. intros i Hi.
    destruct (Hlines i Hi) as [token ->]. unfold answer. simpl.
    by rewrite Hrej.
Qed.

(** X5. [HumanController.get_action] acts on the terminal only: the
    controller, the network, its gradients, numpy's random state and the
    files are as before.  When it returns after rejecting [n] tokens it
    has read [n + 1] lines; when the input ends after [n] rejected tokens
    it has read [n]; either way it has written [2 n + 1] times (a prompt
    per read, an error per rejection). *)
Theorem HumanController_get_action_terminal_only
    (input_map : gmap string Action) (fuel : nat) state w r w' :
  HumanController_get_action input_map fuel state w = Some (r, w') ->
  (self w' = self w /\ model w' = model w /\ grad w' = grad w /\
   numpy_random w' = numpy_random w /\ files w' = files w /\
   stdin w' = stdin w) /\
  exists n, n < fuel /\
    length (stdout w') = length (stdout w) + 2 * n + 1 /\
    match r with
    | Ok _ => stdin_pos w' = stdin_pos w + n + 1
    | Raise e => e = EOFError /\ stdin_pos w' = stdin_pos w + n
    end.
Proof.
  intros H.
  assert (forall n, length (rejected_output n) = 2 * n) as Hlen
    by (intros n; induction n as [|n IH]; simpl; lia).
  apply loop_outcome in H
    as (n & Hn & _ & [(a & -> & -> & _)|(-> & -> & _)]);
    destruct (rejected_iter_fields n w)
      as (Hs & Hm & Hg & Hr & Hf & Hi & Hpos & Hout);
    (split; [simpl; by rewrite Hs, Hm, Hg, Hr, Hf, Hi|]);
    exists n; (split; [done|]); simpl; rewrite Hpos, Hout, !length_app, Hlen;
    simpl; repeat split; lia.
Qed.

End GetActionProperties.

(** ** [DQNTrainerController.get_action] and [DQNPlayerController.get_action] *)

Section GreedyProperties.
Context `{FL : Float} `{NR : !NumpyRandom} `{TO : !Torch}.
Implicit Types (w : World) (state : TetrisState) (acts : container).

Lemma DQNTrainerController_get_action_random_only_aux (epsilon : float) state w :
  (DQNTrainerController_get_action epsilon state w).2
  = set_numpy_random
      (if flt (random_rand (numpy_random w)).1 epsilon
       then match iter (actions (self w)) with
            | [] => (random_rand (numpy_random w)).2
            | _ => (random_index (length (iter (actions (self w))))
                      (random_rand (numpy_random w)).2).2
            end
       else (random_rand (numpy_random w)).2) w.
Proof.
  run_methods. destruct (random_rand (numpy_random w)) as [u g1]. simpl.
  destruct (flt u epsilon); simpl.
  - destruct (iter (actions (self w))) as [|b l]; [done|].
    by destruct (random_index _ g1).
  - destruct (DQN_apply (model w) (to_tensor state)) as [q|e]; [|done].
    simpl. destruct (argmax q) as [i|e]; [|done]. simpl.
    by destruct (action_map (self w) !! i).
Qed.

(** X6. [DQNTrainerController.get_action] changes nothing but numpy's
    random state, whether it returns or raises: one draw on the greedy
    branch and on an empty action set, two when it explores. *)
Theorem DQNTrainerController_get_action_random_only (epsilon : float) state w :
  let u := (random_rand (numpy_random w)).1 in
  let g1 := (random_rand (numpy_random w)).2 in
  let l := iter (actions (self w)) in
  (DQNTrainerController_get_action epsilon state w).2
  = set_numpy_random
      (if flt u epsilon
       then match l with
            | [] => g1
            | _ => (random_index (length l) g1).2
            end
       else g1) w.
Proof. apply DQNTrainerController_get_action_random_only_aux. Qed.

(** X8. With [epsilon = 1] the trainer controller never consults the
    network: its result is the same for every state and every network. *)
Theorem DQNTrainerController_get_action_explores `{RL : !RandomLaws}
    state state' (net' : DQN) w :
  (DQNTrainerController_get_action f1 state' (set_model net' w)).1
  = (DQNTrainerController_get_action f1 state w).1.
Proof.
  run_methods. simpl. pose proof (rand_below_one (numpy_random w)) as Hu.
  destruct (random_rand (numpy_random w)) as [u g1]. simpl in *.
  rewrite Hu. simpl. destruct (iter (actions (self w))) as [|b l]; [done|].
  by destruct (random_index _ g1).
Qed.

(** X9. On the greedy branch, when no action of the set has the argmax
    index as its id, [DQNTrainerController.get_action] raises
    [KeyError]. *)
Theorem DQNTrainerController_get_action_unknown_id
    acts (epsilon : float) state w (q : list float) (i : Z) :
  self w = DQNTrainerController_init acts epsilon ->
  flt (random_rand (numpy_random w)).1 epsilon = false ->
  DQN_apply (model w) (to_tensor state) = Ok q ->
  argmax q = Ok i ->
  i ∉ id <$> iter acts ->
  (DQNTrainerController_get_action epsilon state w).1 = Raise KeyError.
Proof.
  intros Hself Hu Hq Hi Hout. run_methods.
  destruct (random_rand (numpy_random w)) as [u g1]. simpl in *.
  rewrite Hu. simpl. rewrite Hq. simpl. rewrite Hi. simpl.
  rewrite Hself. simpl. unfold dict_getitem, build_action_map.
  rewrite fill_absent by done. by rewrite lookup_empty.
Qed.

(** X11. On an action set, once the forward pass has produced scores the
    player controller raises [TypeError] and changes nothing. *)
Theorem DQNPlayerController_get_action_on_set
    (elems : list Action) state w (q : list float) :
  actions (self w) = PySet elems ->
  DQN_apply (model w) (to_tensor state) = Ok q -> q ≠ [] ->
  DQNPlayerController_get_action state w = (Raise TypeError, w).
Proof.
  intros Hset Hq Hne. run_methods. simpl. rewrite Hq. simpl.
  destruct q as [|x r]; [done|]. simpl. by rewrite Hset.
Qed.

(** Ids equal to positions: the map built from the list is the list. *)
Lemma ordered_action_map (elems : list Action) (i : Z) a :
  (forall k b, elems !! k = Some b -> id b = Z.of_nat k) ->
  (0 <= i)%Z ->
  build_action_map (PyList elems) !! i = Some a <-> elems !! Z.to_nat i = Some a.
Proof.
  intros Hord Hi. split.
  - intros [Hin Hid]%build_action_map_origin. simpl in Hin.
    apply list_elem_of_lookup in Hin as [k Hk].
    rewrite (Hord k a Hk) in Hid.
    by replace (Z.to_nat i) with k by lia.
  - intros Ha. assert (id a = i) as Hid
      by (rewrite (Hord _ _ Ha); lia).
    destruct (fill_present elems ∅ a) as [a' Ha'];
      [by eapply list_elem_of_lookup_2|].
    rewrite Hid in Ha'. unfold build_action_map. simpl. rewrite Ha'. f_equal.
    apply (build_action_map_origin (PyList elems)) in Ha' as [Hin Hid'].
    simpl in Hin. apply list_elem_of_lookup in Hin as [k Hk].
    rewrite (Hord k a' Hk) in Hid'.
    replace (Z.to_nat i) with k in Ha by lia. congruence.
Qed.

(** X10. When the actions are given as a list in which every action's id
    is its position, the player controller and the trainer controller
    with [epsilon = 0] return the same actions on the same network and
    state. *)
Theorem DQNPlayer_agrees_on_ordered_list `{RL : !RandomLaws}
    (elems : list Action) state (trainer player : World) a :
  (forall k b, elems !! k = Some b -> id b = Z.of_nat k) ->
  self trainer = DQNTrainerController_init (PyList elems) f0 ->
  self player = DQNPlayerController_init (PyList elems) ->
  model trainer = model player ->
  (DQNTrainerController_get_action f0 state trainer).1 = Ok a <->
  (DQNPlayerController_get_action state player).1 = Ok a.
Proof.
  intros Hord Ht Hp Hm.
  rewrite DQNTrainerController_get_action_greedy, Hm, Ht. simpl.
  destruct (DQN_apply (model player) (to_tensor state)) as [q|e] eqn:Hq.
  2:{ run_methods. simpl. by rewrite Hq. }
  destruct (argmax q) as [i|e] eqn:Hi.
  2:{ run_methods. simpl. rewrite Hq. simpl. by rewrite Hi. }
  rewrite (DQNPlayerController_get_action_list elems state player q i)
    by (done || by rewrite Hp).
  pose proof (argmax_in_range q i Hi) as [Hpos _].
  pose proof (fun b => ordered_action_map elems i b Hord Hpos) as Hiff.
  unfold dict_getitem.
  destruct (build_action_map (PyList elems) !! i) as [b|] eqn:Eb;
    destruct (elems !! Z.to_nat i) as [c|] eqn:Ec.
  - assert (c = b) as -> by (destruct (Hiff b) as [H _]; by injection (H eq_refl)).
    done.
  - destruct (Hiff b) as [H _]. by specialize (H eq_refl).
  - destruct (Hiff c) as [_ H]. by specialize (H eq_refl).
  - done.
Qed.

(** X7. With [epsilon = 0] the trainer controller never explores: for
    ordered scores it returns the action map's entry for the argmax of
    the forward pass (raising what the forward pass raises, [IndexError]
    for an empty score vector, [KeyError] for an index that is no id) and
    makes exactly one random draw. *)
Theorem DQNTrainerController_get_action_never_explores
    `{FO : !FloatOrder} `{RL : !RandomLaws} state w :
  DQNTrainerController_get_action f0 state w
  = (match DQN_apply (model w) (to_tensor state) with
     | Ok q => match argmax q with
               | Ok i => dict_getitem (action_map (self w)) i
               | Raise e => Raise e
               end
     | Raise e => Raise e
     end,
     set_numpy_random (random_rand (numpy_random w)).2 w).
Proof.
  rewrite (surjective_pairing (DQNTrainerController_get_action f0 state w)).
  rewrite DQNTrainerController_get_action_greedy.
  rewrite DQNTrainerController_get_action_random_only_aux.
  by rewrite rand_not_negative.
Qed.

(** X12. Given the actions as a list, the player controller returns the
    element at the argmax position, whatever its id, and raises
    [IndexError] when the scores have their maximum beyond the end of the
    list. *)
Theorem DQNPlayerController_get_action_positional
    (elems : list Action) state w (q : list float) (i : Z) :
  actions (self w) = PyList elems ->
  DQN_apply (model w) (to_tensor state) = Ok q ->
  argmax q = Ok i ->
  (forall a, elems !! Z.to_nat i = Some a ->
     DQNPlayerController_get_action state w = (Ok a, w)) /\
  (len elems <= i ->
     DQNPlayerController_get_action state w = (Raise IndexError, w))%Z.
Proof.
  intros Hlist Hq Hi.
  pose proof (DQNPlayerController_get_action_list elems state w q i Hlist Hq Hi)
    as Hres.
  assert ((DQNPlayerController_get_action state w).2 = w) as Hw.
  { run_methods. simpl. rewrite Hq. simpl. rewrite Hi. done. }
  rewrite (surjective_pairing (DQNPlayerController_get_action state w)).
  rewrite Hres, Hw. split.
  - by intros a ->.
  - intros Hlen. rewrite lookup_ge_None_2; [done|]. unfold len in Hlen. lia.
Qed.

End GreedyProperties.

(** ** [DQNTrainerController.train] and the forward pass *)

Section TrainProperties.
Context `{FL : Float} `{NR : !NumpyRandom} `{TO : !Torch}.
Implicit Types (w : World) (state next_state : TetrisState) (action : Action).

Lemma tensor_setitem_cases (q : list float) (i : Z) (v : float) :
  tensor_setitem q i v
  = if decide (0 <= i < len q)%Z then Ok (<[Z.to_nat i := v]> q)
    else if decide (- len q <= i < 0)%Z
         then Ok (<[Z.to_nat (i + len q) := v]> q)
         else if fits_int64 i then Raise IndexError else Raise ValueError.
Proof.
  unfold tensor_setitem, len. cbv zeta.
  destruct (Z.ltb_spec i 0) as [Hneg|Hpos].
  - destruct (Z.ltb_spec (i + Z.of_nat (length q)) 0) as [Hlow|Hin];
      repeat case_decide; try done; lia.
  - assert ((i <? 0)%Z = false) as -> by lia.
    repeat case_decide; try done; lia.
Qed.

Lemma DQN_apply_raises (net : DQN) (x : list float) e :
  DQN_apply net x = Raise e -> e = RuntimeError.
Proof.
  unfold DQN_apply, Linear_forward.
  repeat (case_match; simplify_eq/=); congruence.
Qed.

Lemma tensor_max_raises (v : list float) e :
  tensor_max v = Raise e -> e = RuntimeError.
Proof. destruct v; simpl; congruence. Qed.

Lemma tensor_setitem_raises (q : list float) (i : Z) (v : float) e :
  tensor_setitem q i v = Raise e ->
  (- len q <= i < len q -> False)%Z /\
  e = if fits_int64 i then IndexError else ValueError.
Proof.
  rewrite tensor_setitem_cases.
  repeat case_decide; destruct (fits_int64 i); intros [= <-];
    (split; [lia|done]).
Qed.

(** X13. [train] never touches the controller, numpy's random state, the
    terminal or the files.  When it raises, the error is a
    [RuntimeError] (a forward pass or the maximum of empty scores), an
    [IndexError] or a [ValueError] (the index [action.id]), and the whole
    world, network and gradients included, is as before; when it ends
    normally the gradient accumulator holds the gradient of this call's
    loss alone. *)
Theorem DQNTrainerController_train_footprint
    state action next_state (reward : float) w :
  let r := DQNTrainerController_train state action next_state reward w in
  (self r.2 = self w /\ numpy_random r.2 = numpy_random w /\
   stdin r.2 = stdin w /\ stdin_pos r.2 = stdin_pos w /\
   stdout r.2 = stdout w /\ files r.2 = files w) /\
  match r.1 with
  | Ok _ =>
    grad r.2
    = Some (backward (train_loss state action next_state reward) (model w))
  | Raise e =>
    r.2 = w /\ (e = RuntimeError \/ e = IndexError \/ e = ValueError)
  end.
Proof.
  run_methods. simpl.
  destruct (DQN_apply (model w) (to_tensor state)) as [q|e] eqn:Hq; simpl;
    [|apply DQN_apply_raises in Hq; auto 12].
  destruct (DQN_apply (model w) (to_tensor next_state)) as [nq|e] eqn:Hnq;
    simpl; [|apply DQN_apply_raises in Hnq; auto 12].
  destruct (tensor_max nq) as [m|e] eqn:Hmax; simpl;
    [|apply tensor_max_raises in Hmax; auto 12].
  destruct (tensor_setitem q (id action) (fadd reward m)) as [t|e] eqn:Hset;
    simpl; [auto 12|].
  apply tensor_setitem_raises in Hset as [_ ->].
  destruct (fits_int64 (id action)); auto 12.
Qed.

(** X14. An [action.id] outside [-n, n), for [n] scores, makes [train]
    raise without any update: [IndexError] when the id fits a 64-bit
    integer, [ValueError] when it does not. *)
Theorem DQNTrainerController_train_rejects_id
    state action next_state (reward : float) w (q_values next_q_values : list float) :
  DQN_apply (model w) (to_tensor state) = Ok q_values ->
  DQN_apply (model w) (to_tensor next_state) = Ok next_q_values ->
  next_q_values ≠ [] ->
  (id action < - len q_values \/ len q_values <= id action)%Z ->
  DQNTrainerController_train state action next_state reward w
  = (Raise (if fits_int64 (id action) then IndexError else ValueError), w).
Proof.
  intros Hq Hnq Hne Hid. run_methods. simpl. rewrite Hq, Hnq. simpl.
  destruct next_q_values as [|x r]; [done|]. simpl.
  rewrite tensor_setitem_cases.
  rewrite decide_False by lia. rewrite decide_False by lia.
  by destruct (fits_int64 (id action)).
Qed.

(** X15. A negative [action.id] in [-n, 0) counts from the end: [train]
    ends normally and its target differs from [q_values] at position
    [n + action.id]. *)
Theorem DQNTrainerController_train_negative_id
    state action next_state (reward : float) w (q_values next_q_values : list float) :
  DQN_apply (model w) (to_tensor state) = Ok q_values ->
  DQN_apply (model w) (to_tensor next_state) = Ok next_q_values ->
  next_q_values ≠ [] ->
  (- len q_values <= id action < 0)%Z ->
  exists m,
    tensor_max next_q_values = Ok m /\
    train_loss state action next_state reward (model w)
    = Ok (MSELoss q_values
            (<[Z.to_nat (len q_values + id action) := fadd reward m]> q_values)) /\
    (DQNTrainerController_train state action next_state reward w).1 = Ok tt.
Proof.
  intros Hq Hnq Hne Hid.
  destruct (tensor_max next_q_values) as [m|e] eqn:Hmax;
    [|by destruct next_q_values].
  exists m. split; [done|].
  assert (tensor_setitem q_values (id action) (fadd reward m)
          = Ok (<[Z.to_nat (len q_values + id action) := fadd reward m]> q_values))
    as Hset.
  { rewrite tensor_setitem_cases. rewrite decide_False by lia.
    rewrite decide_True by lia. by rewrite Z.add_comm. }
  split.
  - unfold train_loss. by rewrite Hq, Hnq, Hmax, Hset.
  - run_methods. simpl. rewrite Hq, Hnq. simpl. by rewrite Hmax, Hset.
Qed.

(** X16. A state whose feature vector has not the network's input size is
    rejected with [RuntimeError], with no change to the world, by the
    forward pass and by every method that runs it: the player's
    [get_action] and [train]. *)
Theorem wrong_state_size_rejected
    (input_size output_size : nat) state w :
  DQN_shaped input_size output_size (model w) ->
  length (to_tensor state) ≠ input_size ->
  DQN_forward (to_tensor state) w = (Raise RuntimeError, w) /\
  DQNPlayerController_get_action state w = (Raise RuntimeError, w) /\
  forall action next_state reward,
    DQNTrainerController_train state action next_state reward w
    = (Raise RuntimeError, w).
Proof.
  intros Hs Hx.
  pose proof (DQN_apply_misfits _ _ _ _ Hs Hx) as Hq.
  repeat split; intros; run_methods; simpl; by rewrite Hq.
Qed.

(** The parameters after a call of [train] that ends normally. *)
Lemma train_model_after state action next_state (reward : float) w :
  (DQNTrainerController_train state action next_state reward w).1 = Ok tt ->
  model (DQNTrainerController_train state action next_state reward w).2
  = (Adam_step (Adam_new (model w) (fQ (1 # 1000))) (model w)
       (backward (train_loss state action next_state reward) (model w))).1.
Proof.
  run_methods. simpl.
  destruct (DQN_apply (model w) (to_tensor state)) as [q|e]; [|done].
  simpl. destruct (DQN_apply (model w) (to_tensor next_state)) as [nq|e];
    [|done].
  simpl. destruct (tensor_max nq) as [m|e]; [|done]. simpl.
  by destruct (tensor_setitem q (id action) (fadd reward m)).
Qed.

End TrainProperties.

(** ** [DQN.save], [DQN.load] and how the calls compose *)

Section CheckpointProperties.
Context `{FL : Float} `{NR : !NumpyRandom} `{TO : !Torch}.
Implicit Types (w : World) (net saved : DQN) (path : string).


Lemma DQN_load_file `{PL : !PickleLaws} path w (sd : gmap string Tensor) :
  files w !! path = Some (pickle sd) ->
  DQN_load path w
  = ((load_state_dict (model w) sd).1,
     set_model (load_state_dict (model w) sd).2 w).
Proof.
  intros Hfile. run_methods. simpl. rewrite Hfile, unpickle_pickle.
  by destruct (load_state_dict (model w) sd) as [[[]|e] net'].
Qed.

Lemma load_state_dict_other_architecture (i o i' o' : nat) (saved net : DQN) :
  DQN_shaped i o saved -> DQN_shaped i' o' net ->
  i ≠ i' \/ o ≠ o' ->
  (load_state_dict net (state_dict saved)).1 = Raise RuntimeError.
Proof.
  intros ((I1 & O1 & W1 & B1 & _) & (I2 & O2 & W2 & B2 & _)
          & (I3 & O3 & W3 & B3 & _))
         ((J1 & P1 & _) & (J2 & P2 & _) & (J3 & P3 & _)) Hdiff.
  unfold load_state_dict.
  destruct saved as [[i1 o1 w1 b1] [i2 o2 w2 b2] [i3 o3 w3 b3]].
  simpl in *. unfold load_Linear, load_weight, load_bias, state_dict. simpl.
  repeat (rewrite lookup_insert_eq || (rewrite lookup_insert_ne by done)).
  simpl. subst.
  destruct (decide (i = in_features (fc1 net))) as [Ei|Ei].
  - assert (length w3 ≠ out_features (fc3 net)) as Ho
      by (destruct Hdiff as [Hd|Hd]; congruence).
    rewrite (decide_False (P := [length w3; 64] = _)) by congruence.
    repeat case_decide; simpl; by rewrite ?andb_false_r.
  - rewrite (decide_False (P := [length w1; i] = _)) by congruence.
    repeat case_decide; simpl; by rewrite ?andb_false_r.
Qed.

Lemma DQN_load_restores `{PL : !PickleLaws} (i o : nat) path w saved :
  files w !! path = Some (pickle (state_dict saved)) ->
  DQN_shaped i o saved -> DQN_shaped i o (model w) ->
  DQN_load path w = (Ok tt, set_model saved w).
Proof.
  intros Hfile Hs Hm. rewrite (DQN_load_file path w _ Hfile).
  by rewrite (load_state_dict_same_architecture i o saved (model w) Hs Hm).
Qed.

(** X19. The last save to a path wins: after saving one network and then
    another at the same path, loading restores the second. *)
Theorem last_save_wins `{PL : !PickleLaws}
    (i o : nat) path w (second current : DQN) :
  DQN_shaped i o second -> DQN_shaped i o current ->
  let w1 := (DQN_save path w).2 in
  let w2 := (DQN_save path (set_model second w1)).2 in
  DQN_load path (set_model current w2)
  = (Ok tt, set_model second (set_model current w2)).
Proof.
  intros Hs Hc w1 w2. apply (DQN_load_restores i o); [|done|done].
  subst w1 w2. run_methods. simpl. apply lookup_insert_eq.
Qed.

(** X20. Loading a checkpoint into a network built for another input
    size or another number of actions raises [RuntimeError]. *)
Theorem DQN_load_rejects_other_architecture `{PL : !PickleLaws}
    (i o i' o' : nat) path w (current : DQN) :
  DQN_shaped i o (model w) -> DQN_shaped i' o' current ->
  i ≠ i' \/ o ≠ o' ->
  (DQN_load path (set_model current (DQN_save path w).2)).1
  = Raise RuntimeError.
Proof.
  intros Hs Hc Hdiff.
  rewrite (DQN_load_file path _ (state_dict (model w)))
    by (run_methods; simpl; apply lookup_insert_eq).
  change (model (set_model current (DQN_save path w).2)) with current.
  simpl. by apply (load_state_dict_other_architecture i o i' o').
Qed.


Lemma call_keeps_file (fuel : nat) (m : method) w r w' path :
  call fuel m w = Some (r, w') -> m ≠ call_save path ->
  files w' !! path = files w !! path.
Proof.
  intros H Hm.
  destruct m as [state|state action next_state reward|state|p|p];
    simpl in H.
  - unfold get_action in H. destruct (kind (self w)) as [input_map|epsilon|].
    + destruct (HumanController_get_action input_map fuel state w)
        as [[r0 w0]|] eqn:E; [|done].
      apply loop_frame in E as (_ & _ & _ & _ & ?).
      destruct r0; simpl in H; simplify_eq; congruence.
    + run_methods. simpl in H.
      repeat (case_match; simplify_eq/=); done.
    + run_methods. simpl in H.
      repeat (case_match; simplify_eq/=); done.
  - destruct (kind (self w)); [by simplify_eq| |by simplify_eq].
    run_methods. simpl in H.
    repeat (case_match; simplify_eq/=); done.
  - destruct (kind (self w)); simpl in H; by simplify_eq.
  - run_methods. simpl in H. simplify_eq/=.
    apply lookup_insert_ne. congruence.
  - run_methods. simpl in H.
    repeat (case_match; simplify_eq/=); done.
Qed.

(** X22. A checkpoint survives what comes after it: whatever call other
    than a save to the same path follows [save(path)] (a training step,
    say), [load(path)] then puts the saved parameters back, as long as
    the network still has the architecture it was saved with. *)
Theorem checkpoint_survives_call `{PL : !PickleLaws}
    (i o : nat) path (fuel : nat) (m : method) w r w' :
  DQN_shaped i o (model w) ->
  call fuel m (DQN_save path w).2 = Some (r, w') ->
  m ≠ call_save path ->
  DQN_shaped i o (model w') ->
  DQN_load path w' = (Ok tt, set_model (model w) w').
Proof.
  intros Hs Hcall Hm Hs'. apply (DQN_load_restores i o); [|done|done].
  rewrite (call_keeps_file _ _ _ _ _ path Hcall Hm).
  run_methods. simpl. apply lookup_insert_eq.
Qed.

End CheckpointProperties.

(** * The further properties, run on the instance *)

Section FurtherScenarios.
#[local] Existing Instance Q_Float.
#[local] Existing Instance LCG_Random.
#[local] Existing Instance Q_Torch.
#[local] Existing Instance Q_FloatOrder.
#[local] Existing Instance LCG_RandomLaws.
#[local] Existing Instance Q_PickleLaws.

Lemma Controller_init_last_id_wins_witness :
  dict_getitem
    (action_map
       (Controller_init
          (PySet [Left; {| id := 0; name := "Hold" |}; Right]) DQNPlayer))
    0%Z
  = Ok {| id := 0; name := "Hold" |}.
Proof.
  destruct (Controller_init_last_id_wins
              (PySet [Left; {| id := 0; name := "Hold" |}; Right]) DQNPlayer
              [Left] [Right] {| id := 0; name := "Hold" |}) as [H _].
  - reflexivity.
  - refine (bool_decide_unpack _ _); vm_compute; exact I.
  - exact H.
Defined.

Lemma get_action_returns_member_witness : Right ∈ example_actions.
Proof.
  apply (get_action_returns_member (PySet example_actions) (DQNTrainer f0) 0
           example_state
           (example_world
              (DQNTrainerController_init (PySet example_actions) f0))).
  - reflexivity.
  - vm_compute. reflexivity.
Defined.

Lemma HumanController_get_action_unanswerable_witness :
  HumanController_get_action example_input_map 100 example_state
    (example_world (HumanController_init (PySet []) example_input_map))
  = None.
Proof.
  destruct (HumanController_get_action_unanswerable (PySet [])
              example_input_map 100 example_state
              (example_world
                 (HumanController_init (PySet []) example_input_map)))
    as [_ H].
  - reflexivity.
  - intros token b _. apply not_elem_of_nil.
  - apply H. intros [|i] _; eexists; reflexivity.
Defined.

Lemma HumanController_get_action_terminal_only_witness :
  exists n, n < 2 /\
    stdin_pos
      (accepted (Nat.iter 1 rejected
         (example_world
            (HumanController_init (PySet example_actions) example_input_map))))
    = 0 + n + 1.
Proof.
  destruct (HumanController_get_action_terminal_only example_input_map 2
              example_state
              (example_world
                 (HumanController_init (PySet example_actions)
                    example_input_map))
              (Ok Left)
              (accepted (Nat.iter 1 rejected
                 (example_world
                    (HumanController_init (PySet example_actions)
                       example_input_map)))))
    as [_ (n & Hn & _ & Hpos)].
  - apply (loop_returns example_input_map 1).
    + intros i Hi. assert (i = 0) as -> by lia. vm_compute. reflexivity.
    + vm_compute. reflexivity.
    + lia.
  - exists n. split; [exact Hn|exact Hpos].
Defined.

Lemma DQNTrainerController_get_action_never_explores_witness :
  (DQNTrainerController_get_action f0 example_state
     (example_world
        (DQNTrainerController_init (PySet example_actions) f0))).1
  = Ok Right.
Proof.
  rewrite DQNTrainerController_get_action_never_explores.
  vm_compute. reflexivity.
Defined.

Lemma DQNTrainerController_get_action_explores_witness :
  (DQNTrainerController_get_action f1 next_example_state
     (set_model (DQN_init 10 3
                   {| fc1_values := zero_values; fc2_values := zero_values;
                      fc3_values := zero_values |})
        (example_world
           (DQNTrainerController_init (PySet example_actions) f1)))).1
  = (DQNTrainerController_get_action f1 example_state
       (example_world
          (DQNTrainerController_init (PySet example_actions) f1))).1.
Proof. apply DQNTrainerController_get_action_explores. Defined.

Lemma DQNTrainerController_get_action_unknown_id_witness :
  (DQNTrainerController_get_action f0 example_state
     (example_world (DQNTrainerController_init (PySet [Left; Drop]) f0))).1
  = Raise KeyError.
Proof.
  eapply (DQNTrainerController_get_action_unknown_id (PySet [Left; Drop])).
  - reflexivity.
  - vm_compute. reflexivity.
  - vm_compute. reflexivity.
  - vm_compute. reflexivity.
  - refine (bool_decide_unpack _ _); vm_compute; exact I.
Defined.

Lemma DQNPlayerController_get_action_on_set_witness :
  DQNPlayerController_get_action example_state
    (example_world (DQNPlayerController_init (PySet example_actions)))
  = (Raise TypeError,
     example_world (DQNPlayerController_init (PySet example_actions))).
Proof.
  eapply DQNPlayerController_get_action_on_set.
  - reflexivity.
  - vm_compute. reflexivity.
  - discriminate.
Defined.

Lemma DQNPlayer_agrees_on_ordered_list_witness :
  (DQNPlayerController_get_action example_state
     (example_world (DQNPlayerController_init (PyList example_actions)))).1
  = Ok Right.
Proof.
  apply (DQNPlayer_agrees_on_ordered_list example_actions example_state
           (example_world
              (DQNTrainerController_init (PyList example_actions) f0))
           (example_world (DQNPlayerController_init (PyList example_actions)))
           Right).
  - intros [|[|[|k]]] b; simpl; intros [= <-]; reflexivity.
  - reflexivity.
  - reflexivity.
  - reflexivity.
  - vm_compute. reflexivity.
Defined.

Lemma DQNPlayerController_get_action_positional_witness :
  DQNPlayerController_get_action example_state
    (example_world (DQNPlayerController_init (PyList [Right; Left; Drop])))
  = (Ok Left,
     example_world (DQNPlayerController_init (PyList [Right; Left; Drop]))).
Proof.
  edestruct (DQNPlayerController_get_action_positional [Right; Left; Drop]
               example_state
               (example_world
                  (DQNPlayerController_init (PyList [Right; Left; Drop]))))
    as [H _].
  - reflexivity.
  - vm_compute. reflexivity.
  - vm_compute. reflexivity.
  - apply H. reflexivity.
Defined.

Lemma DQNTrainerController_train_rejects_id_witness :
  DQNTrainerController_train example_state {| id := 3; name := "Hold" |}
    next_example_state (fQ 1%Q)
    (example_world (DQNTrainerController_init (PySet example_actions) f0))
  = (Raise IndexError,
     example_world (DQNTrainerController_init (PySet example_actions) f0)).
Proof.
  eapply DQNTrainerController_train_rejects_id.
  - vm_compute. reflexivity.
  - vm_compute. reflexivity.
  - discriminate.
  - right. unfold len. simpl. lia.
Defined.

Lemma DQNTrainerController_train_negative_id_witness :
  (DQNTrainerController_train example_state {| id := -1; name := "Last" |}
     next_example_state (fQ 1%Q)
     (example_world
        (DQNTrainerController_init (PySet example_actions) f0))).1
  = Ok tt.
Proof.
  edestruct (DQNTrainerController_train_negative_id example_state
               {| id := -1; name := "Last" |} next_example_state (fQ 1%Q)
               (example_world
                  (DQNTrainerController_init (PySet example_actions) f0)))
    as (m & _ & _ & H).
  - vm_compute. reflexivity.
  - vm_compute. reflexivity.
  - discriminate.
  - unfold len. simpl. lia.
  - exact H.
Defined.

Lemma wrong_state_size_rejected_witness :
  DQNPlayerController_get_action
    {| to_tensor := [fQ 0%Q; fQ 0%Q; fQ 0%Q]; score := fQ 0%Q; turn := fQ 0%Q |}
    (example_world (DQNPlayerController_init (PySet example_actions)))
  = (Raise RuntimeError,
     example_world (DQNPlayerController_init (PySet example_actions))).
Proof.
  destruct (wrong_state_size_rejected 10 3
              {| to_tensor := [fQ 0%Q; fQ 0%Q; fQ 0%Q];
                 score := fQ 0%Q; turn := fQ 0%Q |}
              (example_world
                 (DQNPlayerController_init (PySet example_actions))))
    as (_ & H & _).
  - apply DQN_init_shaped.
  - simpl. lia.
  - exact H.
Defined.

Lemma Linear_map2_shaped (f : Q -> Q -> Q) (a b : Linear) :
  Linear_shaped a -> Linear_shaped b ->
  in_features a = in_features b -> out_features a = out_features b ->
  Linear_shaped (Linear_map2 f a b).
Proof.
  intros (Wa & Ba & Ra) (Wb & Bb & Rb) Hin Hout.
  unfold Linear_shaped, Linear_map2. simpl in *.
  rewrite !length_zip_with. repeat split; try lia.
  apply Forall_lookup. intros k row Hrow.
  apply lookup_zip_with_Some in Hrow as (ra & rb & -> & Hra & Hrb).
  rewrite length_zip_with.
  pose proof (Forall_lookup_1 _ _ _ _ Ra Hra) as Ha.
  pose proof (Forall_lookup_1 _ _ _ _ Rb Hrb) as Hb.
  simpl in *. lia.
Qed.

Lemma DQN_map2_shaped (f : Q -> Q -> Q) (i o : nat) (a b : DQN) :
  DQN_shaped i o a -> DQN_shaped i o b -> DQN_shaped i o (DQN_map2 f a b).
Proof.
  intros ((I1 & O1 & S1) & (I2 & O2 & S2) & (I3 & O3 & S3))
         ((J1 & P1 & T1) & (J2 & P2 & T2) & (J3 & P3 & T3)).
  unfold DQN_shaped, DQN_map2. simpl.
  repeat split; try done; apply Linear_map2_shaped; congruence.
Qed.

Lemma last_save_wins_witness :
  let w := example_world (DQNPlayerController_init (PySet example_actions)) in
  let second :=
    DQN_init 10 3
      {| fc1_values := zero_values; fc2_values := zero_values;
         fc3_values := zero_values |} in
  let w2 := (DQN_save "dqn.pt" (set_model second (DQN_save "dqn.pt" w).2)).2 in
  DQN_load "dqn.pt" (set_model example_net w2)
  = (Ok tt, set_model second (set_model example_net w2)).
Proof.
  intros w second w2.
  apply (last_save_wins 10 3 "dqn.pt" w second example_net);
    apply DQN_init_shaped.
Defined.

Lemma DQN_load_rejects_other_architecture_witness :
  let w := example_world (DQNPlayerController_init (PySet example_actions)) in
  let four_actions :=
    DQN_init 10 4
      {| fc1_values := zero_values; fc2_values := zero_values;
         fc3_values := zero_values |} in
  (DQN_load "dqn.pt" (set_model four_actions (DQN_save "dqn.pt" w).2)).1
  = Raise RuntimeError.
Proof.
  intros w four_actions.
  apply (DQN_load_rejects_other_architecture 10 3 10 4).
  - apply DQN_init_shaped.
  - apply DQN_init_shaped.
  - right. discriminate.
Defined.


(** Save, one training step, load: the saved parameters are back. *)
Lemma checkpoint_survives_call_witness :
  let w :=
    example_world (DQNTrainerController_init (PySet example_actions) f0) in
  let trained :=
    DQNTrainerController_train example_state Right next_example_state
      (fQ 1%Q) (DQN_save "dqn.pt" w).2 in
  DQN_load "dqn.pt" trained.2 = (Ok tt, set_model example_net trained.2).
Proof.
  intros w trained.
  apply (checkpoint_survives_call 10 3 "dqn.pt" 0
           (call_train example_state Right next_example_state (fQ 1%Q))
           w trained.1 trained.2).
  - apply DQN_init_shaped.
  - change (Some trained = Some (trained.1, trained.2)).
    by rewrite <- surjective_pairing.
  - discriminate.
  - unfold trained. rewrite train_model_after by (vm_compute; reflexivity).
    apply (DQN_map2_shaped _ 10 3); [apply DQN_init_shaped|].
    apply (DQN_map2_shaped _ 10 3); apply DQN_init_shaped.
Defined.

End FurtherScenarios.
